(** * Neptune auto-charger: a shallow embedding of [main.py]

    The script inspects a user's charging history for a session that a
    power cut ended inside a short window around midnight and, when the
    port is free again, restarts the charge.  This development embeds
    the decision logic of [main.py]:

    - [find_power_off_record], the time-window matcher;
    - [is_port_free], the port check;
    - [try_charge] (with [get_user_info], [get_charge_log],
      [get_device_info], [begin_charge]), one recovery attempt;
    - [main], the retry controller.

    Python values are dynamically typed, so JSON payloads are embedded as
    a [value] type and every operation that can raise returns a [result].
    Effects (HTTP requests, clock reads, log lines, sleeps) are appended to
    an explicit trace; the remote platform and the clock are an arbitrary
    function of that trace. *)

From Stdlib Require Import ZArith List Bool Lia String Ascii.
Import ListNotations.
Local Open Scope string_scope.
Local Open Scope list_scope.
Local Open Scope Z_scope.
Set Warnings "-register-all".

(** ** Exceptions and the two monads *)

(** The classes of [Exception] that the script can meet.  [ClientError],
    [TimeoutError] and [ContentTypeError] are what [session.post] and
    [resp.json()] raise on a network failure, on the 30 second timeout
    and on a body that is not JSON; [OSError] is what [fromtimestamp]
    raises when the C library cannot name the year. *)
Inductive exn : Type :=
| AttributeError
| TypeError
| ValueError
| IndexError
| KeyError
| OverflowError
| OSError
| ClientError (detail : string)
| TimeoutError
| ContentTypeError
| OtherException (detail : string).

(** Outcome of an expression: a value or a raised exception. *)
Inductive result (A : Type) : Type :=
| Ret (a : A)
| Raise (e : exn).
Arguments Ret {A} a.
Arguments Raise {A} e.

Definition rbind {A B} (c : result A) (k : A -> result B) : result B :=
  match c with
  | Ret a => k a
  | Raise e => Raise e
  end.

Declare Scope result_scope.
Delimit Scope result_scope with res.
Notation "x <- c ;; k" := (rbind c (fun x => k))
  (at level 61, c at next level, right associativity) : result_scope.

(** [try: c except (classes): h]: the handler runs for the listed classes,
    any other exception goes on to the caller. *)
Definition try_except {A} (c : result A) (handles : exn -> bool) (h : result A)
  : result A :=
  match c with
  | Ret a => Ret a
  | Raise e => if handles e then h else Raise e
  end.

(** ** JSON values as Python objects *)

(** What [resp.json()] delivers, for a platform whose numbers are integers
    (a JSON number with a fraction or an exponent would be a [float], which
    is not among these values).  A string is the sequence of its code
    points, each below 256: the texts of the platform that the script
    looks into are device addresses, port numbers and strings of status
    digits. *)
Inductive value : Type :=
| VNone
| VBool (b : bool)
| VInt (z : Z)
| VStr (s : string)
| VList (l : list value)
| VDict (d : list (string * value)).

Definition dict : Type := list (string * value).

Fixpoint dict_lookup (k : string) (d : dict) : option value :=
  match d with
  | [] => None
  | (k', v) :: rest => if String.eqb k k' then Some v else dict_lookup k rest
  end.

(** [d[k] = v]: an existing key keeps its place, a new key goes last. *)
Fixpoint dict_set (k : string) (v : value) (d : dict) : dict :=
  match d with
  | [] => [(k, v)]
  | (k', v') :: rest =>
      if String.eqb k k' then (k', v) :: rest else (k', v') :: dict_set k v rest
  end.

(** [obj.get(k, default)]: only a dict has the method. *)
Definition py_get (obj : value) (k : string) (default : value) : result value :=
  match obj with
  | VDict d => Ret (match dict_lookup k d with Some v => v | None => default end)
  | _ => Raise AttributeError
  end.

(** Truth value of an object, as [if x] and [not x] test it. *)
Definition truthy (v : value) : bool :=
  match v with
  | VNone => false
  | VBool b => b
  | VInt z => negb (z =? 0)
  | VStr s => negb (String.eqb s "")
  | VList l => match l with [] => false | _ => true end
  | VDict d => match d with [] => false | _ => true end
  end.

Definition is_none (v : value) : bool :=
  match v with VNone => true | _ => false end.

Definition b2z (b : bool) : Z := if b then 1 else 0.

(** [v == n] for an integer [n]; [bool] is a subclass of [int]. *)
Definition py_eq_int (v : value) (n : Z) : bool :=
  match v with
  | VInt z => z =? n
  | VBool b => b2z b =? n
  | _ => false
  end.

(** [v == s] for a string [s]. *)
Definition py_eq_str (v : value) (s : string) : bool :=
  match v with
  | VStr t => String.eqb t s
  | _ => false
  end.

(** [v < n] for an integer [n]; ordering an [int] against [None], a string,
    a list or a dict raises [TypeError]. *)
Definition py_lt_int (v : value) (n : Z) : result bool :=
  match v with
  | VInt z => Ret (z <? n)
  | VBool b => Ret (b2z b <? n)
  | _ => Raise TypeError
  end.

(** *** Floats

    The quotient [n / d] of two ints is a float: the binary64 number
    nearest to the exact quotient, a tie going to the even mantissa.  The
    script divides by 100 (a balance) and by 1000 (an end time), so [d] is
    positive here. *)

(** The integer nearest to [n / d], a tie going to the even one. *)
Definition round_half_even (n d : Z) : Z :=
  let q := n / d in
  let r := n mod d in
  if 2 * r <? d then q
  else if d <? 2 * r then q + 1
  else if Z.even q then q else q + 1.

(** The largest float is [2^1024 - 2^971]; an exact quotient from
    [2^1024 - 2^970] on rounds to [2^1024], which no float holds, and the
    division raises [OverflowError]. *)
Definition float_overflow (n d : Z) : bool :=
  d * (2 ^ 1024 - 2 ^ 970) <=? Z.abs n.

(** The float of [n / d] when there is one, as the pair [(m, s)] that
    stands for [m * 2^-s]: [p] is the number of bits of the integer part of
    the quotient, the mantissa [m] has 53 bits. *)
Definition binary64 (n d : Z) : Z * Z :=
  if n =? 0 then (0, 0)
  else
    let a := Z.abs n in
    let p0 := Z.log2 a - Z.log2 d in
    let reaches := if 0 <=? p0 then d * 2 ^ p0 <=? a else d <=? a * 2 ^ (- p0) in
    let p := if reaches then p0 + 1 else p0 in
    let s := 53 - p in
    let m := if 0 <=? s then round_half_even (a * 2 ^ s) d
             else round_half_even a (d * 2 ^ (- s)) in
    (Z.sgn n * m, s).

(** [v / 100], as lines 222, 271 and 275 format it with [:.2f]: the
    operand must be a number and the quotient must fit a float.  The float
    itself only goes into a log line or a message and is not kept. *)
Definition py_truediv_check (v : value) : result unit :=
  match v with
  | VInt z => if float_overflow z 100 then Raise OverflowError else Ret tt
  | VBool _ => Ret tt
  | _ => Raise TypeError
  end.

(** [len(v)]. *)
Definition py_len (v : value) : result Z :=
  match v with
  | VStr s => Ret (Z.of_nat (String.length s))
  | VList l => Ret (Z.of_nat (List.length l))
  | VDict d => Ret (Z.of_nat (List.length d))
  | _ => Raise TypeError
  end.

(** [list(v)], as [list.extend] iterates its argument: a string yields its
    characters and a dict its keys. *)
Definition py_iter (v : value) : result (list value) :=
  match v with
  | VList l => Ret l
  | VStr s => Ret (map (fun c => VStr (String c EmptyString)) (list_ascii_of_string s))
  | VDict d => Ret (map (fun kv => VStr (fst kv)) d)
  | _ => Raise TypeError
  end.

(** [v[i]] for an integer [i]: a negative index counts from the end. *)
Definition py_getitem (v : value) (i : Z) : result value :=
  match v with
  | VStr s =>
      let n := Z.of_nat (String.length s) in
      let j := if i <? 0 then i + n else i in
      if (0 <=? j) && (j <? n)
      then match String.get (Z.to_nat j) s with
           | Some c => Ret (VStr (String c EmptyString))
           | None => Raise IndexError
           end
      else Raise IndexError
  | VList l =>
      let n := Z.of_nat (List.length l) in
      let j := if i <? 0 then i + n else i in
      if (0 <=? j) && (j <? n)
      then match nth_error l (Z.to_nat j) with
           | Some x => Ret x
           | None => Raise IndexError
           end
      else Raise IndexError
  | VDict _ => Raise KeyError
  | _ => Raise TypeError
  end.

(** ** [int(str)] *)

(** White space that [int] strips from both ends of its argument: TAB, LF,
    VT, FF, CR and the blank, and of the code points from 128 on the two
    that are white space, NEL (133) and the no-break space (160).  The
    separators FS to US (28 to 31) are not stripped: [int] refuses a string
    that holds one. *)
Definition is_space (c : ascii) : bool :=
  let n := nat_of_ascii c in
  ((9 <=? n) && (n <=? 13) || (n =? 32) || (n =? 133) || (n =? 160))%nat.

Definition digit_value (c : ascii) : option Z :=
  let n := nat_of_ascii c in
  if ((48 <=? n) && (n <=? 57))%nat then Some (Z.of_nat n - 48) else None.

Fixpoint lstrip (cs : list ascii) : list ascii :=
  match cs with
  | c :: rest => if is_space c then lstrip rest else cs
  | [] => []
  end.

Definition strip (cs : list ascii) : list ascii := rev (lstrip (rev (lstrip cs))).

(** Digits with single underscores between them; the result is the number
    read and the count of its digits. *)
Fixpoint digits_loop (cs : list ascii) (prev_underscore : bool) (acc ndigits : Z)
  : option (Z * Z) :=
  match cs with
  | [] => if prev_underscore then None else Some (acc, ndigits)
  | c :: rest =>
      if Ascii.eqb c "_"%char
      then if prev_underscore then None else digits_loop rest true acc ndigits
      else match digit_value c with
           | Some d => digits_loop rest false (acc * 10 + d) (ndigits + 1)
           | None => None
           end
  end.

Definition parse_digits (cs : list ascii) : option (Z * Z) :=
  match cs with
  | [] => None
  | c :: _ => if Ascii.eqb c "_"%char then None else digits_loop cs false 0 0
  end.

(** [int(s)] in base 10.  [max_str_digits] is the interpreter's
    [sys.get_int_max_str_digits()] (4300 by default since Python 3.11, 0 for
    no limit): a longer literal is a [ValueError] too. *)
Definition int_of_string (max_str_digits : Z) (s : string) : result Z :=
  let cs := strip (list_ascii_of_string s) in
  let '(negative, body) :=
    match cs with
    | c :: rest =>
        if Ascii.eqb c "-"%char then (true, rest)
        else if Ascii.eqb c "+"%char then (false, rest)
        else (false, cs)
    | [] => (false, cs)
    end in
  match parse_digits body with
  | Some (n, ndigits) =>
      if (0 <? max_str_digits) && (max_str_digits <? ndigits)
      then Raise ValueError
      else Ret (if negative then - n else n)
  | None => Raise ValueError
  end.

(** [int(v)]. *)
Definition py_int (max_str_digits : Z) (v : value) : result Z :=
  match v with
  | VInt z => Ret z
  | VBool b => Ret (b2z b)
  | VStr s => int_of_string max_str_digits s
  | _ => Raise TypeError
  end.

(** ** The proleptic Gregorian calendar of [datetime] *)

Module Calendar.

Record date : Type := mkDate { year : Z; month : Z; day : Z }.

Definition _DAYS_IN_MONTH : list Z :=
  [-1; 31; 28; 31; 30; 31; 30; 31; 31; 30; 31; 30; 31].
Definition _DAYS_BEFORE_MONTH : list Z :=
  [-1; 0; 31; 59; 90; 120; 151; 181; 212; 243; 273; 304; 334].

Definition table (t : list Z) (i : Z) : Z := nth (Z.to_nat i) t (-1).

Definition _is_leap (y : Z) : bool :=
  (y mod 4 =? 0) && (negb (y mod 100 =? 0) || (y mod 400 =? 0)).

Definition _days_before_year (y : Z) : Z :=
  let y1 := y - 1 in y1 * 365 + y1 / 4 - y1 / 100 + y1 / 400.

Definition _days_in_month (y m : Z) : Z :=
  if (m =? 2) && _is_leap y then 29 else table _DAYS_IN_MONTH m.

Definition _days_before_month (y m : Z) : Z :=
  table _DAYS_BEFORE_MONTH m + (if (2 <? m) && _is_leap y then 1 else 0).

Definition _ymd2ord (y m d : Z) : Z :=
  _days_before_year y + _days_before_month y m + d.

Definition _DI400Y : Z := 146097.
Definition _DI100Y : Z := 36524.
Definition _DI4Y : Z := 1461.
Definition _MAXORDINAL : Z := 3652059.

(** Ordinal to (year, month, day), with 0001-01-01 as day 1. *)
Definition _ord2ymd (n0 : Z) : date :=
  let n := n0 - 1 in
  let n400 := n / _DI400Y in
  let n := n mod _DI400Y in
  let year := n400 * 400 + 1 in
  let n100 := n / _DI100Y in
  let n := n mod _DI100Y in
  let n4 := n / _DI4Y in
  let n := n mod _DI4Y in
  let n1 := n / 365 in
  let n := n mod 365 in
  let year := year + n100 * 100 + n4 * 4 + n1 in
  if (n1 =? 4) || (n100 =? 4) then mkDate (year - 1) 12 31
  else
    let leapyear := (n1 =? 3) && (negb (n4 =? 24) || (n100 =? 3)) in
    let month := Z.shiftr (n + 50) 5 in
    let preceding :=
      table _DAYS_BEFORE_MONTH month + (if (2 <? month) && leapyear then 1 else 0) in
    if n <? preceding then
      let month := month - 1 in
      let preceding :=
        preceding
        - (table _DAYS_IN_MONTH month + (if (month =? 2) && leapyear then 1 else 0)) in
      mkDate year month (n - preceding + 1)
    else mkDate year month (n - preceding + 1).

Definition toordinal (d : date) : Z := _ymd2ord (year d) (month d) (day d).

(** A date [datetime] can hold, without the upper bound on the year. *)
Definition civil_date (d : date) : bool :=
  (1 <=? year d) && (1 <=? month d) && (month d <=? 12)
  && (1 <=? day d) && (day d <=? _days_in_month (year d) (month d)).

Definition valid_date (d : date) : bool := civil_date d && (year d <=? 9999).

Definition date_eqb (a b : date) : bool :=
  (year a =? year b) && (month a =? month b) && (day a =? day b).

(** [d - timedelta(days=n)]. *)
Definition date_sub_days (d : date) (n : Z) : result date :=
  let o := toordinal d - n in
  if (0 <? o) && (o <=? _MAXORDINAL) then Ret (_ord2ymd o) else Raise OverflowError.

(** The day before, read off the fields. *)
Definition prev_day (d : date) : date :=
  if 1 <? day d then mkDate (year d) (month d) (day d - 1)
  else if 1 <? month d
       then mkDate (year d) (month d - 1) (_days_in_month (year d) (month d - 1))
       else mkDate (year d - 1) 12 31.

Definition shift_years (k : Z) (d : date) : date :=
  mkDate (year d + 400 * k) (month d) (day d).

Definition zrange (lo len : nat) : list Z := map Z.of_nat (seq lo len).

(** Every date with year, month and day drawn from the three lists is read
    back from its ordinal. *)
Definition roundtrip_check (years months days : list Z) : bool :=
  forallb (fun y => forallb (fun m => forallb (fun d =>
    let dt := mkDate y m d in
    if civil_date dt then date_eqb (_ord2ymd (toordinal dt)) dt else true)
    days) months) years.

End Calendar.
Import Calendar.

(** ** Aware datetimes in the fixed zone UTC+8 *)

Record datetime : Type := mkDatetime {
  dt_date : date;
  hour : Z;
  minute : Z;
  second : Z;
  microsecond : Z
}.

Definition dt_fields (t : datetime) : list Z :=
  [year (dt_date t); month (dt_date t); day (dt_date t);
   hour t; minute t; second t; microsecond t].

(** Tuple comparison, as [datetime] compares two values of one zone. *)
Fixpoint lex_compare (a b : list Z) : comparison :=
  match a, b with
  | [], [] => Eq
  | [], _ :: _ => Lt
  | _ :: _, [] => Gt
  | x :: a', y :: b' =>
      match x ?= y with
      | Eq => lex_compare a' b'
      | c => c
      end
  end.

Definition dt_le (a b : datetime) : bool :=
  match lex_compare (dt_fields a) (dt_fields b) with Gt => false | _ => true end.

Definition dt_lt (a b : datetime) : bool :=
  match lex_compare (dt_fields a) (dt_fields b) with Lt => true | _ => false end.

Definition valid_datetime (t : datetime) : bool :=
  valid_date (dt_date t)
  && (0 <=? hour t) && (hour t <=? 23)
  && (0 <=? minute t) && (minute t <=? 59)
  && (0 <=? second t) && (second t <=? 59)
  && (0 <=? microsecond t) && (microsecond t <=? 999999).

(** [datetime(y, m, d, hh, mm, tzinfo=TZ_BEIJING)]: the constructor checks
    its fields. *)
Definition make_datetime (y m d hh mm : Z) : result datetime :=
  let t := mkDatetime (mkDate y m d) hh mm 0 0 in
  if valid_datetime t then Ret t else Raise ValueError.

(** [t.replace(day=d)]. *)
Definition replace_day (t : datetime) (d : Z) : result datetime :=
  let t' := mkDatetime (mkDate (year (dt_date t)) (month (dt_date t)) d)
                       (hour t) (minute t) (second t) (microsecond t) in
  if valid_datetime t' then Ret t' else Raise ValueError.

(** [t - timedelta(days=n)]. *)
Definition datetime_sub_days (t : datetime) (n : Z) : result datetime :=
  (d <- date_sub_days (dt_date t) n ;;
   Ret (mkDatetime d (hour t) (minute t) (second t) (microsecond t)))%res.

(** Seconds from 0001-01-01 00:00 to [t] on the zone's own clock: what the
    difference of two datetimes of one zone is measured in. *)
Definition local_seconds (t : datetime) : Z :=
  (toordinal (dt_date t) - 1) * 86400 + hour t * 3600 + minute t * 60 + second t.

Definition EPOCH_ORDINAL : Z := 719163.
Definition TZ_BEIJING_OFFSET : Z := 8 * 3600.

(** [datetime.fromtimestamp(ms / 1000, tz=TZ_BEIJING)] for an integer count
    of milliseconds, step by step as CPython computes it on Linux:

    - [ms / 1000] is a float, or raises [OverflowError];
    - the float is split into its whole seconds and its fraction, the
      fraction is multiplied by a million (a float again) and rounded to
      a whole number of microseconds, a tie going to the even one;
    - the seconds must fit the 64 bits of [time_t], or [OverflowError];
    - [gmtime] names the day in UTC and fails, with [OSError], on a year
      that does not fit 32 bits once 1900 is taken off;
    - [datetime] holds the years 1 to 9999, or [ValueError];
    - [tz.fromutc] adds the eight hours, or [OverflowError] past the last
      day of 9999.

    For an instant of this century the float is within a fifth of a
    microsecond of the exact quotient and the microseconds are the exact
    ones; near the year 9999 they can be off by some fifteen. *)
Definition fromtimestamp_ms (ms : Z) : result datetime :=
  if float_overflow ms 1000 then Raise OverflowError
  else
    let '(m, s) := binary64 ms 1000 in
    let num := if 0 <? s then m else m * 2 ^ (- s) in
    let den := if 0 <? s then 2 ^ s else 1 in
    let intpart := Z.quot num den in
    let '(fm, fs) := binary64 (Z.rem num den * 1000000) den in
    let floatpart :=
      if 0 <=? fs then round_half_even fm (2 ^ fs) else fm * 2 ^ (- fs) in
    let '(secs, us) :=
      if 1000000 <=? floatpart then (intpart + 1, floatpart - 1000000)
      else if floatpart <? 0 then (intpart - 1, floatpart + 1000000)
      else (intpart, floatpart) in
    if (secs <? - 2 ^ 63) || (2 ^ 63 <? secs) then Raise OverflowError
    else
      let utc := _ord2ymd (secs / 86400 + EPOCH_ORDINAL) in
      if (year utc - 1900 <? - 2 ^ 31) || (2 ^ 31 - 1 <? year utc - 1900)
      then Raise OSError
      else if (year utc <? 1) || (9999 <? year utc) then Raise ValueError
      else
        let loc := secs + TZ_BEIJING_OFFSET in
        let ord := loc / 86400 + EPOCH_ORDINAL in
        let sod := loc mod 86400 in
        if _MAXORDINAL <? ord then Raise OverflowError
        else Ret (mkDatetime (_ord2ymd ord)
                             (sod / 3600) ((sod mod 3600) / 60) (sod mod 60) us).

(** [datetime.fromtimestamp(v / 1000, tz=TZ_BEIJING)] for a JSON value. *)
Definition py_fromtimestamp_ms (v : value) : result datetime :=
  match v with
  | VInt z => fromtimestamp_ms z
  | VBool b => fromtimestamp_ms (b2z b)
  | _ => Raise TypeError
  end.

Definition digit_char (d : Z) : ascii := ascii_of_nat (48 + Z.to_nat (d mod 10)).

(** The term of a month, "YYYYMM": four digits of year, two of month. *)
Definition month_term (y m : Z) : string :=
  String (digit_char (y / 1000)) (String (digit_char (y / 100))
    (String (digit_char (y / 10)) (String (digit_char y)
      (String (digit_char (m / 10)) (String (digit_char m) EmptyString))))).

(** [t.strftime("%Y%m")]. *)
Definition strftime_Ym (t : datetime) : string :=
  month_term (year (dt_date t)) (month (dt_date t)).

(** ** Configuration *)

(** The constants [main.py] imports from [config.py], and the list of
    problems [validate_config()] returns (the module itself is not part of
    the sources, so its values are parameters). *)
Record config : Type := mkConfig {
  OPEN_ID : string;
  AREA_ID : string;
  EMPLOYEE_ID : string;
  MAX_CHARGE_TIME : Z;
  BASE_URL : string;
  POWER_OFF_WINDOW_START_HOUR : Z;
  POWER_OFF_WINDOW_START_MINUTE : Z;
  POWER_OFF_WINDOW_END_HOUR : Z;
  POWER_OFF_WINDOW_END_MINUTE : Z;
  POWER_OFF_END_TYPE : Z;
  validate_config : list string
}.

Definition MAX_RETRIES : Z := 3.
Definition RETRY_INTERVAL : Z := 10 * 60.

Definition HEADERS (cfg : config) : list (string * string) :=
  [("User-Agent",
    "Mozilla/5.0 (Linux; Android 16) AppleWebKit/537.36 Chrome/142.0 Mobile Safari/537.36 MicroMessenger/8.0");
   ("Content-Type", "application/x-www-form-urlencoded; charset=UTF-8");
   ("Origin", BASE_URL cfg);
   ("Referer",
    (BASE_URL cfg ++ "/wx/indexn.html?openId=" ++ OPEN_ID cfg ++ "&areaid=" ++ AREA_ID cfg)%string);
   ("Accept", "*/*")].

(** ** Outcomes, messages and log lines *)

Inductive ChargeResult : Type :=
| SUCCESS
| NO_RECORD
| PORT_BUSY
| ERROR.

(** The message returned next to a [ChargeResult]: one constructor per
    format string of [try_charge], with the values it interpolates. *)
Inductive message : Type :=
| MsgUserInfoFailed
| MsgInsufficientBalance
| MsgNoHistory
| MsgNoPowerOffRecord
| MsgDeviceInfoFailed
| MsgPortBusy (port : value)
| MsgCharging (devaddress : string) (port balance : value)
| MsgChargeFailed (reason : value)
| MsgException (e : exn).

(** One constructor per [log(...)] call of the script. *)
Inductive log_line : Type :=
| LSeparator
| LStartup
| LRetryPolicy (retries minutes : Z)
| LConfigError (err : string)
| LCheckEnvFile
| LAttempt (attempt retries : Z)
| LChargeStarted
| LDetail (m : message)
| LMaxChargeTime (minutes : Z)
| LResult (m : message)
| LNothingToRecover
| LRetryIn (minutes : Z)
| LMaxRetriesReached
| LAllRetriesFailed
| LFetchUserInfo
| LBalance (balance : value)
| LFetchHistory (term : string)
| LRecordCount (n : Z)
| LCheckRecords
| LWindow (window_start window_end : datetime)
| LFoundRecord (devaddress devport : value) (end_time : datetime)
| LFetchDevice (devaddress : string)
| LPortStatus (portstatur : value)
| LPortFree (port : value)
| LStartCharge (devaddress : string) (port balance : value).

(** ** Effects *)

Inductive event : Type :=
| EvLog (l : log_line)
| EvNow
| EvPost (url : string) (data : dict) (headers : list (string * string))
| EvSessionOpen (timeout : Z)
| EvSessionClose
| EvSleep (seconds : Z).

Definition trace : Type := list event.

(** What the script cannot decide for itself.  [post_json tr url data] is
    the outcome of [session.post(url, data=data, headers=HEADERS)] followed
    by [resp.json()] after the effects [tr]; [clock tr] is
    [datetime.now(TZ_BEIJING)]; [str_of] is [str()], as format strings apply
    it; [int_max_str_digits] is the interpreter's limit for [int(str)]. *)
Record env : Type := mkEnv {
  post_json : trace -> string -> dict -> result value;
  clock : trace -> datetime;
  str_of : value -> string;
  int_max_str_digits : Z
}.

(** A computation with effects: it extends the trace and returns or raises. *)
Definition M (A : Type) : Type := trace -> result A * trace.

Definition ret {A} (a : A) : M A := fun tr => (Ret a, tr).

Definition bind {A B} (c : M A) (k : A -> M B) : M B :=
  fun tr =>
    match c tr with
    | (Ret a, tr') => k a tr'
    | (Raise e, tr') => (Raise e, tr')
    end.

Definition lift {A} (r : result A) : M A := fun tr => (r, tr).

Definition emit (ev : event) : M unit := fun tr => (Ret tt, tr ++ [ev]).

Declare Scope M_scope.
Delimit Scope M_scope with M.
Notation "x <- c ;; k" := (bind c (fun x => k))
  (at level 61, c at next level, right associativity) : M_scope.
Notation "c ;; k" := (bind c (fun _ => k))
  (at level 61, right associativity) : M_scope.

(** [try: c except Exception as e: h e]. *)
Definition try_except_Exception {A} (c : M A) (h : exn -> M A) : M A :=
  fun tr =>
    match c tr with
    | (Ret a, tr') => (Ret a, tr')
    | (Raise e, tr') => h e tr'
    end.

(** [log(...)]: the line is printed behind a time stamp; the reading of
    the clock for the stamp is not recorded in the trace.  The standard
    output is taken to accept the line, as it does every text of code
    points below 256 when its encoding is UTF-8. *)
Definition log (l : log_line) : M unit := emit (EvLog l).

(** [range(lo, hi)]. *)
Definition py_range (lo hi : Z) : list Z :=
  map (fun i => lo + Z.of_nat i) (seq 0 (Z.to_nat (hi - lo))).

(** ** The script *)

Section Script.

Variable E : env.
Variable cfg : config.

Local Open Scope M_scope.

(** [datetime.now(TZ_BEIJING)]. *)
Definition datetime_now : M datetime :=
  fun tr => (Ret (clock E tr), tr ++ [EvNow]).

(** [async with session.post(url, data=data, headers=HEADERS) as resp:
    result = await resp.json()]. *)
Definition session_post (url : string) (data : dict) : M value :=
  fun tr => (post_json E tr url data, tr ++ [EvPost url data (HEADERS cfg)]).

(** [async with aiohttp.ClientSession(timeout=timeout) as session: c]: the
    session is closed whether [c] returns or raises. *)
Definition with_session {A} (timeout : Z) (c : M A) : M A :=
  fun tr =>
    let '(r, tr') := c (tr ++ [EvSessionOpen timeout]) in
    (r, tr' ++ [EvSessionClose]).

Definition get_user_info : M value :=
  let url := (BASE_URL cfg ++ "/wxn/getUserInfo")%string in
  let data := [("openId", VStr (OPEN_ID cfg)); ("areaId", VStr (AREA_ID cfg))] in
  result <- session_post url data ;;
  success <- lift (py_get result "success" VNone) ;;
  if truthy success then lift (py_get result "obj" VNone) else ret VNone.

Definition get_charge_log (term : string) : M value :=
  let url := (BASE_URL cfg ++ "/wxn/getChargeLog")%string in
  let data := [("employeeid", VStr (EMPLOYEE_ID cfg)); ("term", VStr term)] in
  result <- session_post url data ;;
  success <- lift (py_get result "success" VNone) ;;
  if truthy success then lift (py_get result "obj" (VList [])) else ret (VList []).

Definition get_device_info (devaddress : string) : M value :=
  let url := (BASE_URL cfg ++ "/wxn/getDeviceInfo")%string in
  let data := [("areaId", VStr (AREA_ID cfg)); ("devaddress", VStr devaddress)] in
  result <- session_post url data ;;
  success <- lift (py_get result "success" VNone) ;;
  if truthy success then lift (py_get result "obj" VNone) else ret VNone.

(** The [params] dict of [begin_charge], before the confirmation token. *)
Definition begin_charge_params (devaddress : string) (port money : value)
    (devtypeid safeCharge efee eCharge serviceCharge : value) : dict :=
  [("devaddress", VStr devaddress);
   ("port", port);
   ("money", money);
   ("areaId", VStr (AREA_ID cfg));
   ("openId", VStr (OPEN_ID cfg));
   ("beforemoney", money);
   ("devtypeid", devtypeid);
   ("fullStop", VInt 1);
   ("payType", VInt 1);
   ("safeOpen", VInt 0);
   ("safeCharge", safeCharge);
   ("edtType", VInt 0);
   ("efee", efee);
   ("eCharge", eCharge);
   ("serviceCharge", serviceCharge);
   ("userId", VInt 0);
   ("yuan7", VInt 0)].

Definition begin_charge (devaddress : string) (port money device_info : value)
  : M value :=
  let url := (BASE_URL cfg ++ "/wxn/beginCharge")%string in
  devtypeid <- lift (py_get device_info "devtypeid" (VInt 40)) ;;
  safeCharge <- lift (py_get device_info "safeCharge" (VInt 9)) ;;
  efee <- lift (py_get device_info "efee" (VInt 110)) ;;
  eCharge <- lift (py_get device_info "eCharge" (VInt 55)) ;;
  serviceCharge <- lift (py_get device_info "serviceCharge" (VInt 55)) ;;
  let params :=
    begin_charge_params devaddress port money
      devtypeid safeCharge efee eCharge serviceCharge in
  (* first call: ask for msgflag *)
  result1 <- session_post url params ;;
  success <- lift (py_get result1 "success" VNone) ;;
  if negb (truthy success) then
    msg <- lift (py_get result1 "msg" VNone) ;;
    ret (VDict [("success", VBool false);
                ("msg", VStr ("第一步失败: " ++ str_of E msg)%string)])
  else
    msgflag <- lift (py_get result1 "obj" VNone) ;;
    if negb (truthy msgflag) then
      ret (VDict [("success", VBool false); ("msg", VStr "未获取到 msgflag")])
    else
      (* second call: confirm with msgflag *)
      let params := dict_set "msgflag" msgflag params in
      session_post url params.

(** Lines 157 to 173 of [find_power_off_record]: the window from yesterday
    at the configured start to today at the configured end. *)
Definition power_off_window : M (datetime * datetime) :=
  now <- datetime_now ;;
  let today := dt_date now in
  yesterday <- lift (date_sub_days today 1) ;;
  window_start <- lift (make_datetime (year yesterday) (month yesterday) (day yesterday)
                          (POWER_OFF_WINDOW_START_HOUR cfg)
                          (POWER_OFF_WINDOW_START_MINUTE cfg)) ;;
  window_end <- lift (make_datetime (year today) (month today) (day today)
                        (POWER_OFF_WINDOW_END_HOUR cfg)
                        (POWER_OFF_WINDOW_END_MINUTE cfg)) ;;
  log (LWindow window_start window_end) ;;
  ret (window_start, window_end).

(** Lines 175 to 193: the loop over the records; [VNone] is [None]. *)
Fixpoint find_in_window (window_start window_end : datetime) (logs : list value)
  : M value :=
  match logs with
  | [] => ret VNone
  | record :: rest =>
      endtype <- lift (py_get record "endtype" VNone) ;;
      enddt <- lift (py_get record "enddt" VNone) ;;
      if negb (py_eq_int endtype (POWER_OFF_END_TYPE cfg)) then
        find_in_window window_start window_end rest
      else if is_none enddt then
        find_in_window window_start window_end rest
      else
        end_time <- lift (py_fromtimestamp_ms enddt) ;;
        if dt_le window_start end_time && dt_le end_time window_end then
          devaddress <- lift (py_get record "devaddress" VNone) ;;
          devport <- lift (py_get record "devport" VNone) ;;
          log (LFoundRecord devaddress devport end_time) ;;
          ret record
        else find_in_window window_start window_end rest
  end.

Definition find_power_off_record (logs : list value) : M value :=
  w <- power_off_window ;;
  find_in_window (fst w) (snd w) logs.

Definition is_port_free (portstatur port : value) : result bool :=
  try_except
    (port_index <- py_int (int_max_str_digits E) port ;;
     n <- py_len portstatur ;;
     if n <=? port_index then Ret false
     else
       c <- py_getitem portstatur port_index ;;
       Ret (py_eq_str c "0"))%res
    (fun e => match e with ValueError | IndexError => true | _ => false end)
    (Ret false).

(** Lines 228 to 239 of [try_charge]: this month's history and, in the
    first three days of a month, last month's after it. *)
Definition fetch_charge_history : M (list value) :=
  now <- datetime_now ;;
  let logs := [] in
  let term_this := strftime_Ym now in
  log (LFetchHistory term_this) ;;
  got <- get_charge_log term_this ;;
  more <- lift (py_iter got) ;;
  let logs := logs ++ more in
  if day (dt_date now) <=? 3 then
    first_day <- lift (replace_day now 1) ;;
    last_month <- lift (datetime_sub_days first_day 1) ;;
    let term_last := strftime_Ym last_month in
    log (LFetchHistory term_last) ;;
    got <- get_charge_log term_last ;;
    more <- lift (py_iter got) ;;
    ret (logs ++ more)
  else ret logs.

(** Lines 270 to 277: the start of the charge and its verdict. *)
Definition start_charge (devaddress : string) (port balance device_info : value)
  : M (ChargeResult * message) :=
  lift (py_truediv_check balance) ;;
  log (LStartCharge devaddress port balance) ;;
  result <- begin_charge devaddress port balance device_info ;;
  success <- lift (py_get result "success" VNone) ;;
  if truthy success then
    lift (py_truediv_check balance) ;;
    ret (SUCCESS, MsgCharging devaddress port balance)
  else
    msg <- lift (py_get result "msg" VNone) ;;
    ret (ERROR, MsgChargeFailed msg).

(** Lines 227 to 277: what an attempt does once the balance is enough. *)
Definition recover (balance : value) : M (ChargeResult * message) :=
  logs <- fetch_charge_history ;;
  match logs with
  | [] => ret (NO_RECORD, MsgNoHistory)
  | _ :: _ =>
      log (LRecordCount (Z.of_nat (List.length logs))) ;;
      log LCheckRecords ;;
      record <- find_power_off_record logs ;;
      if negb (truthy record) then ret (NO_RECORD, MsgNoPowerOffRecord)
      else
        address <- lift (py_get record "devaddress" VNone) ;;
        let devaddress := str_of E address in
        port <- lift (py_get record "devport" VNone) ;;
        log (LFetchDevice devaddress) ;;
        device_info <- get_device_info devaddress ;;
        if negb (truthy device_info) then ret (ERROR, MsgDeviceInfoFailed)
        else
          portstatur <- lift (py_get device_info "portstatur" (VStr "")) ;;
          log (LPortStatus portstatur) ;;
          free <- lift (is_port_free portstatur port) ;;
          if negb free then ret (PORT_BUSY, MsgPortBusy port)
          else
            log (LPortFree port) ;;
            start_charge devaddress port balance device_info
  end.

(** The body of the [try] block of [try_charge]. *)
Definition try_charge_body : M (ChargeResult * message) :=
  log LFetchUserInfo ;;
  user_info <- get_user_info ;;
  if negb (truthy user_info) then ret (ERROR, MsgUserInfoFailed)
  else
    balance <- lift (py_get user_info "readyaccountmoney" (VInt 0)) ;;
    lift (py_truediv_check balance) ;;
    log (LBalance balance) ;;
    low <- lift (py_lt_int balance 100) ;;
    if low then ret (ERROR, MsgInsufficientBalance)
    else recover balance.

Definition try_charge : M (ChargeResult * message) :=
  try_except_Exception try_charge_body
    (fun e => ret (ERROR, MsgException e)).

(** [for attempt in range: ...] of [main], for any orchestrator in the
    place of [try_charge]; the statements after the loop are the [[]] case. *)
Fixpoint attempt_loop (orchestrator : M (ChargeResult * message)) (range : list Z)
  : M unit :=
  match range with
  | [] =>
      log LSeparator ;;
      log LAllRetriesFailed ;;
      log LSeparator
  | attempt :: rest =>
      log (LAttempt attempt MAX_RETRIES) ;;
      outcome <- with_session 30 orchestrator ;;
      let '(result, message) := outcome in
      match result with
      | SUCCESS =>
          log LSeparator ;;
          log LChargeStarted ;;
          log (LDetail message) ;;
          log (LMaxChargeTime (MAX_CHARGE_TIME cfg)) ;;
          log LSeparator
      | NO_RECORD =>
          log (LResult message) ;;
          log LNothingToRecover
      | PORT_BUSY | ERROR =>
          log (LResult message) ;;
          (if attempt <? MAX_RETRIES then
             log (LRetryIn (RETRY_INTERVAL / 60)) ;;
             emit (EvSleep RETRY_INTERVAL)
           else log LMaxRetriesReached) ;;
          attempt_loop orchestrator rest
      end
  end.

Fixpoint log_config_errors (errs : list string) : M unit :=
  match errs with
  | [] => ret tt
  | err :: rest => log (LConfigError err) ;; log_config_errors rest
  end.

Definition main_with (orchestrator : M (ChargeResult * message)) : M unit :=
  log LSeparator ;;
  log LStartup ;;
  log (LRetryPolicy MAX_RETRIES (RETRY_INTERVAL / 60)) ;;
  log LSeparator ;;
  match validate_config cfg with
  | _ :: _ =>
      log_config_errors (validate_config cfg) ;;
      log LCheckEnvFile
  | [] => attempt_loop orchestrator (py_range 1 (MAX_RETRIES + 1))
  end.

Definition main : M unit := main_with try_charge.

End Script.

(** ** Vocabulary of the statements *)

(** A charge record as the platform documents it: device address, port
    (an integer in a string), end-type code and end time in milliseconds
    since the epoch, or no end time. *)
Record ChargeRecord : Type := mkRecord {
  devaddress : string;
  devport : string;
  endtype : Z;
  enddt : option Z
}.

(** The JSON object of a record, as [get_charge_log] delivers it. *)
Definition record_value (r : ChargeRecord) : value :=
  VDict [("devaddress", VStr (devaddress r));
         ("devport", VStr (devport r));
         ("endtype", VInt (endtype r));
         ("enddt", match enddt r with Some t => VInt t | None => VNone end)].


(** The record ended with code [code] at a time in [[s, e]], both bounds
    included. *)
Definition ended_in_window (s e : datetime) (code : Z) (r : ChargeRecord) : bool :=
  (endtype r =? code)
  && match enddt r with
     | Some t =>
         match fromtimestamp_ms t with
         | Ret end_time => dt_le s end_time && dt_le end_time e
         | Raise _ => false
         end
     | None => false
     end.

(** The record has the code [code] and an end time that [fromtimestamp]
    refuses: an instant outside the years 1 to 9999. *)
Definition refused_instant (code : Z) (r : ChargeRecord) : bool :=
  (endtype r =? code)
  && match enddt r with
     | Some t => match fromtimestamp_ms t with Ret _ => false | Raise _ => true end
     | None => false
     end.

(** The record neither ended in the window nor has an end time that is
    refused. *)
Definition passed_over (s e : datetime) (code : Z) (r : ChargeRecord) : bool :=
  negb (ended_in_window s e code r) && negb (refused_instant code r).

(** [d.get(k, default)] on the entries of a dict. *)
Definition dict_get (k : string) (default : value) (d : dict) : value :=
  match dict_lookup k d with Some v => v | None => default end.

(** A response of the charge-log endpoint that reports failure (its
    [success] is absent or falsy) or that carries no [obj]. *)
Definition fetch_fails (response : value) : bool :=
  match response with
  | VDict d =>
      negb (truthy (dict_get "success" VNone d))
      || match dict_lookup "obj" d with Some _ => false | None => true end
  | _ => false
  end.

(** Hours in 0..23 and minutes in 0..59 at both ends of the window. *)
Definition valid_window_config (cfg : config) : bool :=
  (0 <=? POWER_OFF_WINDOW_START_HOUR cfg) && (POWER_OFF_WINDOW_START_HOUR cfg <=? 23)
  && (0 <=? POWER_OFF_WINDOW_START_MINUTE cfg) && (POWER_OFF_WINDOW_START_MINUTE cfg <=? 59)
  && (0 <=? POWER_OFF_WINDOW_END_HOUR cfg) && (POWER_OFF_WINDOW_END_HOUR cfg <=? 23)
  && (0 <=? POWER_OFF_WINDOW_END_MINUTE cfg) && (POWER_OFF_WINDOW_END_MINUTE cfg <=? 59).

(** Midnight at the start of the day of [t], in [local_seconds]. *)
Definition midnight_of (t : datetime) : Z := (toordinal (dt_date t) - 1) * 86400.

(** Both ends lie in one stretch of 24 to 25 hours that contains
    [midnight]. *)
Definition within_day_span (window_start window_end : datetime) (midnight : Z) : Prop :=
  exists a b : Z,
    a <= midnight <= b /\ 24 * 3600 <= b - a <= 25 * 3600
    /\ a <= local_seconds window_start /\ local_seconds window_end <= b.

(** The year and month before a month of the calendar. *)
Definition previous_month (y m : Z) : Z * Z :=
  if m =? 1 then (y - 1, 12) else (y, m - 1).

(** The request for the history of the month [term]. *)
Definition charge_log_request (cfg : config) (term : string) : event :=
  EvPost (BASE_URL cfg ++ "/wxn/getChargeLog")%string
         [("employeeid", VStr (EMPLOYEE_ID cfg)); ("term", VStr term)]
         (HEADERS cfg).

Definition user_info_request (cfg : config) : event :=
  EvPost (BASE_URL cfg ++ "/wxn/getUserInfo")%string
         [("openId", VStr (OPEN_ID cfg)); ("areaId", VStr (AREA_ID cfg))]
         (HEADERS cfg).

Definition begin_charge_request (cfg : config) (params : dict) : event :=
  EvPost (BASE_URL cfg ++ "/wxn/beginCharge")%string params (HEADERS cfg).

(** What the retry controller itself does, as read off a trace: it opens a
    session for an attempt, it sleeps, it logs a verdict. *)
Inductive control : Type :=
| Invoked
| Slept (seconds : Z)
| Reported (l : log_line).

Definition control_of (ev : event) : option control :=
  match ev with
  | EvSessionOpen _ => Some Invoked
  | EvSleep s => Some (Slept s)
  | EvLog LChargeStarted => Some (Reported LChargeStarted)
  | EvLog LNothingToRecover => Some (Reported LNothingToRecover)
  | EvLog LMaxRetriesReached => Some (Reported LMaxRetriesReached)
  | EvLog LAllRetriesFailed => Some (Reported LAllRetriesFailed)
  | _ => None
  end.

Fixpoint control_events (tr : trace) : list control :=
  match tr with
  | [] => []
  | ev :: rest =>
      match control_of ev with
      | Some c => c :: control_events rest
      | None => control_events rest
      end
  end.

(** Number of attempts made so far. *)
Definition invocations (tr : trace) : Z :=
  Z.of_nat (List.length (filter (fun c => match c with Invoked => true | _ => false end)
                                (control_events tr))).

(** An orchestrator that answers its [n]-th invocation with [outcomes n],
    whatever the sequence [outcomes] is. *)
Definition scripted (outcomes : Z -> ChargeResult * message)
  : M (ChargeResult * message) :=
  fun tr => (Ret (outcomes (invocations tr)), tr).

(** Seconds of sleep in a trace. *)
Fixpoint slept (tr : trace) : Z :=
  match tr with
  | [] => 0
  | EvSleep s :: rest => s + slept rest
  | _ :: rest => slept rest
  end.

(** Sessions opened and not closed again. *)
Fixpoint open_sessions (tr : trace) : Z :=
  match tr with
  | [] => 0
  | EvSessionOpen _ :: rest => 1 + open_sessions rest
  | EvSessionClose :: rest => open_sessions rest - 1
  | _ :: rest => open_sessions rest
  end.

(** The four endpoints of the platform that the script knows. *)
Definition endpoints (cfg : config) : list string :=
  [(BASE_URL cfg ++ "/wxn/getUserInfo")%string;
   (BASE_URL cfg ++ "/wxn/getChargeLog")%string;
   (BASE_URL cfg ++ "/wxn/getDeviceInfo")%string;
   (BASE_URL cfg ++ "/wxn/beginCharge")%string].

(** What an attempt may do: write a log line, read the clock, send a
    request with [HEADERS] to one of the four endpoints. *)
Definition attempt_event (cfg : config) (ev : event) : Prop :=
  match ev with
  | EvLog _ | EvNow => True
  | EvPost url _ headers => In url (endpoints cfg) /\ headers = HEADERS cfg
  | EvSessionOpen _ | EvSessionClose | EvSleep _ => False
  end.

(** The request for the state of a device. *)
Definition device_info_request (cfg : config) (devaddress : string) : event :=
  EvPost (BASE_URL cfg ++ "/wxn/getDeviceInfo")%string
         [("areaId", VStr (AREA_ID cfg)); ("devaddress", VStr devaddress)]
         (HEADERS cfg).

(** [PortBusy] and [Error] are retried, [Success] and [NoRecordFound] end
    the run. *)
Definition retriable (o : ChargeResult * message) : bool :=
  match fst o with
  | PORT_BUSY | ERROR => true
  | SUCCESS | NO_RECORD => false
  end.

Definition verdict (o : ChargeResult * message) : log_line :=
  match fst o with
  | SUCCESS => LChargeStarted
  | NO_RECORD => LNothingToRecover
  | PORT_BUSY | ERROR => LMaxRetriesReached
  end.

(** ** A concrete platform, for the examples *)

Definition demo_cfg : config :=
  mkConfig "openid" "7" "e42" 480 "https://example.test" 23 45 0 15 39 [].

(** The widest window a valid configuration allows: 00:00 to 23:59. *)
Definition wide_cfg : config :=
  mkConfig "openid" "7" "e42" 480 "https://example.test" 0 0 23 59 39 [].

(** 2024-03-15 06:05:00 in Beijing. *)
Definition demo_now : datetime := mkDatetime (mkDate 2024 3 15) 6 5 0 0.

(** 2024-03-02 06:05:00, in the first three days of a month. *)
Definition demo_now_early : datetime := mkDatetime (mkDate 2024 3 2) 6 5 0 0.

Definition ok_response (obj : value) : value :=
  VDict [("success", VBool true); ("obj", obj)].

Definition failed_response : value :=
  VDict [("success", VBool false); ("msg", VStr "busy")].

(** A platform that knows one user with [balance], the history [history]
    for March 2024 and [older] for any other month, one device whose ports
    are [portstatur], and that answers the two calls of begin-charge with
    [first] and [final]. *)
Definition demo_post (balance : Z) (history older : value) (portstatur : string)
    (first final : value) : trace -> string -> dict -> result value :=
  fun _ url data =>
    if String.eqb url "https://example.test/wxn/getUserInfo" then
      Ret (ok_response (VDict [("readyaccountmoney", VInt balance)]))
    else if String.eqb url "https://example.test/wxn/getChargeLog" then
      Ret (match dict_lookup "term" data with
           | Some (VStr term) => if String.eqb term "202403" then history else older
           | _ => older
           end)
    else if String.eqb url "https://example.test/wxn/getDeviceInfo" then
      Ret (ok_response (VDict [("portstatur", VStr portstatur)]))
    else if String.eqb url "https://example.test/wxn/beginCharge" then
      Ret (match dict_lookup "msgflag" data with Some _ => final | None => first end)
    else Raise (ClientError "404").

Definition demo_str (v : value) : string :=
  match v with VStr s => s | _ => "?" end.

Definition demo_env (now : datetime) (balance : Z) (history older : value)
    (portstatur : string) (first final : value) : env :=
  mkEnv (demo_post balance history older portstatur first final)
        (fun _ => now) demo_str 4300.

(** A session on device D100, port 2, cut at 23:46 on 2024-03-14. *)
Definition demo_record : ChargeRecord :=
  mkRecord "D100" "2" 39 (Some 1710431160000).

(** A session on the same port with the outage code and an end time some
    292 million years away. *)
Definition far_record : ChargeRecord :=
  mkRecord "D100" "2" 39 (Some 9223372036854775807).

(** A session that ended normally a minute later. *)
Definition demo_record_normal : ChargeRecord :=
  mkRecord "D100" "1" 1 (Some 1710431220000).

(** Scenario A of the specification: one outage record in the window, port
    2 free, both calls of begin-charge accepted. *)
Definition scenario_A : env :=
  demo_env demo_now 1234 (ok_response (VList [record_value demo_record]))
    (ok_response (VList [])) "100"
    (ok_response (VStr "tok")) (VDict [("success", VBool true)]).

(** The window of [demo_cfg] on the morning of [demo_now]. *)
Definition demo_window_start : datetime := mkDatetime (mkDate 2024 3 14) 23 45 0 0.
Definition demo_window_end : datetime := mkDatetime (mkDate 2024 3 15) 0 15 0 0.

(** Scenario D of the specification: the balance is 50. *)
Definition scenario_D : env :=
  demo_env demo_now 50 (ok_response (VList [record_value demo_record]))
    (ok_response (VList [])) "100"
    (ok_response (VStr "tok")) (VDict [("success", VBool true)]).

(** The balance is an overdraft beyond what a float can hold. *)
Definition scenario_overdrawn : env :=
  demo_env demo_now (- 10 ^ 400) (ok_response (VList [record_value demo_record]))
    (ok_response (VList [])) "100"
    (ok_response (VStr "tok")) (VDict [("success", VBool true)]).

(** The second of March: the history of February is asked for too, and it
    holds a session that ended normally. *)
Definition scenario_early : env :=
  demo_env demo_now_early 1234 (ok_response (VList [record_value demo_record]))
    (ok_response (VList [record_value demo_record_normal])) "100"
    (ok_response (VStr "tok")) (VDict [("success", VBool true)]).

(** A platform whose charge-log endpoint fails for every month. *)
Definition scenario_no_history : env :=
  demo_env demo_now_early 1234 failed_response failed_response "100"
    (ok_response (VStr "tok")) (VDict [("success", VBool true)]).

(** A configuration that [validate_config] refuses. *)
Definition refused_cfg : config :=
  mkConfig "" "7" "e42" 480 "https://example.test" 23 45 0 15 39
    ["OPEN_ID is not set"].

(** A platform that answers every request with a failure. *)
Definition scenario_down : env :=
  mkEnv (fun _ _ _ => Ret failed_response) (fun _ => demo_now) demo_str 4300.

(** Port 2 of the device is taken. *)
Definition scenario_busy : env :=
  demo_env demo_now 1234 (ok_response (VList [record_value demo_record]))
    (ok_response (VList [])) "101"
    (ok_response (VStr "tok")) (VDict [("success", VBool true)]).

(** The history holds one session, which ended normally. *)
Definition scenario_normal_only : env :=
  demo_env demo_now 1234 (ok_response (VList [record_value demo_record_normal]))
    (ok_response (VList [])) "100"
    (ok_response (VStr "tok")) (VDict [("success", VBool true)]).

(** The charge-log endpoint reports success with a null payload. *)
Definition scenario_null_history : env :=
  demo_env demo_now 1234 (ok_response VNone) (ok_response VNone) "100"
    (ok_response (VStr "tok")) (VDict [("success", VBool true)]).

(** The device endpoint fails, the others answer as in scenario A. *)
Definition scenario_no_device : env :=
  mkEnv (fun tr url data =>
           if String.eqb url "https://example.test/wxn/getDeviceInfo"
           then Ret failed_response
           else post_json scenario_A tr url data)
        (fun _ => demo_now) demo_str 4300.

(** A user record without a balance. *)
Definition scenario_no_balance : env :=
  mkEnv (fun _ _ _ => Ret (ok_response (VDict [("name", VStr "u")])))
        (fun _ => demo_now) demo_str 4300.

(** The discipline of sessions: a session is opened when none is open and
    closed when one is, a request is sent inside a session, the script
    sleeps outside of one, and at the end no session is left open.  [open]
    tells whether a session is open before [tr]. *)
Fixpoint disciplined (open : bool) (tr : trace) : bool :=
  match tr with
  | [] => negb open
  | EvSessionOpen _ :: rest => negb open && disciplined true rest
  | EvSessionClose :: rest => open && disciplined false rest
  | EvPost _ _ _ :: rest => open && disciplined open rest
  | EvSleep _ :: rest => negb open && disciplined open rest
  | _ :: rest => disciplined open rest
  end.

(** What a run of [main] may do: what an attempt may do, and open a session
    with a timeout of 30 seconds, close it, sleep [RETRY_INTERVAL]. *)
Definition main_event (cfg : config) (ev : event) : Prop :=
  match ev with
  | EvSessionOpen timeout => timeout = 30
  | EvSessionClose => True
  | EvSleep seconds => seconds = RETRY_INTERVAL
  | _ => attempt_event cfg ev
  end.

(** Requests sent in a trace. *)
Fixpoint posts (tr : trace) : Z :=
  match tr with
  | [] => 0
  | EvPost _ _ _ :: rest => 1 + posts rest
  | _ :: rest => posts rest
  end.

(** [c] sends at most [n] requests. *)
Definition sends {A} (n : Z) (c : M A) : Prop :=
  forall tr, posts (snd (c tr)) <= posts tr + n.

(** [added] holds at most [n] attempts and [sleeps] sleeps of
    [RETRY_INTERVAL], keeps the discipline of sessions, does only what a
    run of [main] may do, and sends at most six requests for each of the
    [n] attempts. *)
Definition within (cfg : config) (n sleeps : Z) (added : trace) : Prop :=
  invocations added <= n
  /\ slept added <= RETRY_INTERVAL * sleeps
  /\ disciplined false added = true
  /\ Forall (main_event cfg) added
  /\ posts added <= 6 * n.

(** The balance of the user record is a text, not a number. *)
Definition scenario_text_balance : env :=
  mkEnv (fun _ _ _ => Ret (ok_response (VDict [("readyaccountmoney", VStr "1234")])))
        (fun _ => demo_now) demo_str 4300.

(** * Properties *)

(** ** The calendar *)

Module CalendarFacts.

Lemma is_leap_shift (y k : Z) : _is_leap (y + 400 * k) = _is_leap y.
Proof.
  unfold _is_leap.
  replace ((y + 400 * k) mod 4) with (y mod 4)
    by (replace (400 * k) with (100 * k * 4) by lia; now rewrite Z.mod_add).
  replace ((y + 400 * k) mod 100) with (y mod 100)
    by (replace (400 * k) with (4 * k * 100) by lia; now rewrite Z.mod_add).
  replace ((y + 400 * k) mod 400) with (y mod 400)
    by (replace (400 * k) with (k * 400) by lia; now rewrite Z.mod_add).
  reflexivity.
Qed.

Lemma days_before_year_shift (y k : Z) :
  _days_before_year (y + 400 * k) = _days_before_year y + _DI400Y * k.
Proof.
  unfold _days_before_year, _DI400Y. cbv zeta.
  replace (y + 400 * k - 1) with (y - 1 + 400 * k) by lia.
  replace ((y - 1 + 400 * k) / 4) with ((y - 1) / 4 + 100 * k)
    by (replace (400 * k) with (100 * k * 4) by lia; now rewrite Z.div_add).
  replace ((y - 1 + 400 * k) / 100) with ((y - 1) / 100 + 4 * k)
    by (replace (400 * k) with (4 * k * 100) by lia; now rewrite Z.div_add).
  replace ((y - 1 + 400 * k) / 400) with ((y - 1) / 400 + k)
    by (replace (400 * k) with (k * 400) by lia; now rewrite Z.div_add).
  lia.
Qed.

Lemma toordinal_shift (k : Z) (d : date) :
  toordinal (shift_years k d) = toordinal d + _DI400Y * k.
Proof.
  unfold toordinal, shift_years, _ymd2ord, _days_before_month. cbn [year month day].
  rewrite days_before_year_shift, is_leap_shift. lia.
Qed.

Lemma civil_date_shift (k : Z) (d : date) :
  1 <= year d -> 0 <= k -> civil_date (shift_years k d) = civil_date d.
Proof.
  intros Hy Hk. unfold civil_date, shift_years, _days_in_month. cbn [year month day].
  rewrite is_leap_shift.
  replace (1 <=? year d + 400 * k) with true by (symmetry; apply Z.leb_le; lia).
  replace (1 <=? year d) with true by (symmetry; apply Z.leb_le; lia).
  reflexivity.
Qed.

Lemma ord2ymd_shift (n k : Z) :
  _ord2ymd (n + _DI400Y * k) = shift_years k (_ord2ymd n).
Proof.
  unfold _ord2ymd. cbv zeta.
  replace (n + _DI400Y * k - 1) with (n - 1 + k * _DI400Y) by lia.
  rewrite Z.div_add, Z.mod_add by (unfold _DI400Y; lia).
  set (r := (n - 1) mod _DI400Y).
  set (q := (n - 1) / _DI400Y).
  destruct ((r mod _DI100Y mod _DI4Y / 365 =? 4) || (r / _DI100Y =? 4)).
  - unfold shift_years; cbn [year month day]. f_equal. lia.
  - match goal with |- context [if ?c then _ else _] => destruct c end;
      unfold shift_years; cbn [year month day]; f_equal; lia.
Qed.

Lemma date_eqb_eq (a b : date) : date_eqb a b = true -> a = b.
Proof.
  destruct a, b. unfold date_eqb. cbn [year month day]. intros H.
  apply andb_prop in H as [H Hd]. apply andb_prop in H as [Hy Hm].
  apply Z.eqb_eq in Hy, Hm, Hd. congruence.
Qed.

(** The 146097 days of one cycle of 400 years, by computation. *)
Lemma roundtrip_check_cycle :
  roundtrip_check (zrange 1 400) (zrange 1 12) (zrange 1 31) = true.
Proof. vm_compute. reflexivity. Qed.

Lemma roundtrip_check_sound (years months days : list Z) (d : date) :
  roundtrip_check years months days = true ->
  In (year d) years -> In (month d) months -> In (day d) days ->
  civil_date d = true -> _ord2ymd (toordinal d) = d.
Proof.
  intros C Iy Im Id Hc. unfold roundtrip_check in C.
  rewrite forallb_forall in C. specialize (C _ Iy). cbv beta in C.
  rewrite forallb_forall in C. specialize (C _ Im). cbv beta in C.
  rewrite forallb_forall in C. specialize (C _ Id). cbv beta zeta in C.
  destruct d as [y m dd]. cbn [year month day] in C.
  rewrite Hc in C. now apply date_eqb_eq.
Qed.

Lemma in_zrange (lo len : nat) (z : Z) :
  Z.of_nat lo <= z < Z.of_nat lo + Z.of_nat len -> In z (zrange lo len).
Proof.
  intros H. unfold zrange. apply in_map_iff. exists (Z.to_nat z). split.
  - lia.
  - apply in_seq. lia.
Qed.

Lemma days_in_month_le_31 (y m : Z) : _days_in_month y m <= 31.
Proof.
  unfold _days_in_month. destruct ((m =? 2) && _is_leap y); [lia|].
  unfold table, _DAYS_IN_MONTH.
  destruct (Z.to_nat m) as [|[|[|[|[|[|[|[|[|[|[|[|[|[|?]]]]]]]]]]]]]]; cbn; lia.
Qed.

Lemma civil_date_bounds (d : date) :
  civil_date d = true ->
  1 <= year d /\ 1 <= month d <= 12 /\ 1 <= day d <= _days_in_month (year d) (month d).
Proof.
  unfold civil_date. intros H.
  repeat (apply andb_prop in H as [H ?]).
  repeat match goal with
         | H : (_ <=? _) = true |- _ => apply Z.leb_le in H
         end. lia.
Qed.

Lemma roundtrip_in_cycle (d : date) :
  civil_date d = true -> year d <= 400 -> _ord2ymd (toordinal d) = d.
Proof.
  intros Hc Hy. pose proof (civil_date_bounds d Hc) as (Hy1 & Hm & Hd).
  pose proof (days_in_month_le_31 (year d) (month d)) as H31.
  apply (roundtrip_check_sound _ _ _ d roundtrip_check_cycle);
    [apply in_zrange; lia .. | exact Hc].
Qed.

(** Reading a date back from its ordinal: [fromordinal (toordinal d) = d]. *)
Lemma ord2ymd_toordinal (d : date) :
  civil_date d = true -> _ord2ymd (toordinal d) = d.
Proof.
  intros Hc. pose proof (civil_date_bounds d Hc) as (Hy1 & _).
  set (k := (year d - 1) / 400).
  set (d0 := mkDate ((year d - 1) mod 400 + 1) (month d) (day d)).
  assert (Hk : 0 <= k) by (apply Z.div_pos; lia).
  assert (Hr : 0 <= (year d - 1) mod 400 < 400) by (apply Z.mod_pos_bound; lia).
  assert (Hd : d = shift_years k d0).
  { destruct d as [y m dd]. unfold shift_years, d0, k. cbn [year month day] in *.
    f_equal. pose proof (Z_div_mod_eq_full (y - 1) 400). lia. }
  assert (Hc0 : civil_date d0 = true).
  { rewrite <- (civil_date_shift k d0), <- Hd; [exact Hc | | exact Hk].
    unfold d0. cbn [year]. lia. }
  rewrite Hd, toordinal_shift, ord2ymd_shift.
  rewrite (roundtrip_in_cycle d0 Hc0); [reflexivity|].
  unfold d0. cbn [year]. lia.
Qed.

Lemma is_leap_spec (y : Z) :
  _is_leap y = true <-> y mod 4 = 0 /\ (y mod 100 <> 0 \/ y mod 400 = 0).
Proof.
  unfold _is_leap.
  rewrite andb_true_iff, orb_true_iff, negb_true_iff, !Z.eqb_eq, Z.eqb_neq.
  reflexivity.
Qed.

Lemma days_before_year_succ (y : Z) :
  _days_before_year (y + 1)
  = _days_before_year y + 365 + (if _is_leap y then 1 else 0).
Proof.
  unfold _days_before_year. cbv zeta.
  replace (y + 1 - 1) with y by lia.
  destruct (_is_leap y) eqn:L.
  - apply is_leap_spec in L. Z.div_mod_to_equations. lia.
  - assert (N : ~ (y mod 4 = 0 /\ (y mod 100 <> 0 \/ y mod 400 = 0))).
    { intros C. apply is_leap_spec in C. congruence. }
    Z.div_mod_to_equations. lia.
Qed.

Lemma month_cases (m : Z) :
  1 <= m <= 12 ->
  m = 1 \/ m = 2 \/ m = 3 \/ m = 4 \/ m = 5 \/ m = 6 \/ m = 7 \/ m = 8 \/ m = 9
  \/ m = 10 \/ m = 11 \/ m = 12.
Proof. lia. Qed.

Ltac each_month H :=
  apply month_cases in H;
  repeat (destruct H as [H | H]); subst.

Ltac tables :=
  repeat match goal with
         | |- context [table ?t ?i] =>
             let v := eval vm_compute in (table t i) in
             change (table t i) with v
         end;
  cbn.

Lemma days_in_month_ge_28 (y m : Z) : 1 <= m <= 12 -> 28 <= _days_in_month y m.
Proof.
  intros H. unfold _days_in_month. each_month H;
    destruct (_is_leap y); tables; lia.
Qed.

Lemma days_before_month_succ (y m : Z) :
  1 <= m <= 11 ->
  _days_before_month y (m + 1) = _days_before_month y m + _days_in_month y m.
Proof.
  intros H. assert (H' : 1 <= m <= 12) by lia.
  unfold _days_before_month, _days_in_month. each_month H';
    destruct (_is_leap y); tables; lia.
Qed.

Lemma days_before_month_bounds (y m : Z) :
  1 <= m <= 12 ->
  0 <= _days_before_month y m
  /\ _days_before_month y m + _days_in_month y m
     <= 365 + (if _is_leap y then 1 else 0).
Proof.
  intros H. unfold _days_before_month, _days_in_month. each_month H;
    destruct (_is_leap y); tables; lia.
Qed.

Lemma civil_date_intro (d : date) :
  1 <= year d -> 1 <= month d <= 12 ->
  1 <= day d <= _days_in_month (year d) (month d) -> civil_date d = true.
Proof.
  intros Hy Hm Hd. unfold civil_date.
  repeat (apply andb_true_intro; split); apply Z.leb_le; lia.
Qed.

(** The day before a date has the ordinal before. *)
Lemma prev_day_ordinal (d : date) :
  civil_date d = true -> 1 < toordinal d ->
  civil_date (prev_day d) = true /\ toordinal (prev_day d) = toordinal d - 1.
Proof.
  intros Hc Ho. pose proof (civil_date_bounds d Hc) as (Hy & Hm & Hd).
  destruct d as [y m dd]. unfold prev_day, toordinal, _ymd2ord in *.
  cbn [year month day] in *.
  destruct (Z.ltb_spec 1 dd) as [D | D]; cbn [year month day].
  - split; [apply civil_date_intro; cbn [year month day]; lia | lia].
  - assert (dd = 1) by lia. subst dd.
    destruct (Z.ltb_spec 1 m) as [Mo | Mo]; cbn [year month day].
    + pose proof (days_before_month_succ y (m - 1) ltac:(lia)) as S.
      replace (m - 1 + 1) with m in S by lia.
      pose proof (days_in_month_ge_28 y (m - 1) ltac:(lia)).
      split; [apply civil_date_intro; cbn [year month day]; lia | lia].
    + assert (m = 1) by lia. subst m.
      pose proof (days_before_year_succ (y - 1)) as S.
      replace (y - 1 + 1) with y in S by lia.
      assert (B1 : _days_before_month y 1 = 0)
        by (unfold _days_before_month; tables; lia).
      assert (B12 : _days_before_month (y - 1) 12
                    = 334 + (if _is_leap (y - 1) then 1 else 0))
        by (unfold _days_before_month; tables; reflexivity).
      assert (Y0 : _days_before_year 1 = 0) by reflexivity.
      assert (y <> 1).
      { intros ->. rewrite Y0, B1 in Ho. lia. }
      split.
      * apply civil_date_intro; cbn [year month day]; try lia.
        unfold _days_in_month. tables. lia.
      * rewrite S, B1, B12. lia.
Qed.

Lemma days_before_year_bounds (y : Z) :
  1 <= y <= 9999 -> 0 <= _days_before_year y /\ _days_before_year y <= 3651694.
Proof.
  intros H. unfold _days_before_year. cbv zeta.
  Z.div_mod_to_equations. lia.
Qed.

Lemma toordinal_bounds (d : date) :
  valid_date d = true -> 1 <= toordinal d <= _MAXORDINAL.
Proof.
  unfold valid_date. intros H. apply andb_prop in H as [Hc Hy].
  apply Z.leb_le in Hy.
  pose proof (civil_date_bounds d Hc) as (Hy1 & Hm & Hd).
  pose proof (days_before_month_bounds (year d) (month d) Hm) as [B1 B2].
  unfold toordinal, _ymd2ord, _MAXORDINAL.
  destruct (Z.eq_dec (year d) 9999) as [E | E].
  - rewrite E in *. change (_days_before_year 9999) with 3651694.
    change (if _is_leap 9999 then 1 else 0) with 0 in B2. lia.
  - pose proof (days_before_year_bounds (year d + 1) ltac:(lia)) as [_ U].
    rewrite days_before_year_succ in U.
    pose proof (days_before_year_bounds (year d) ltac:(lia)) as [L _].
    lia.
Qed.

(** [d - timedelta(days=1)] is the day before. *)
Lemma date_sub_one_day (d : date) :
  valid_date d = true -> 1 < toordinal d ->
  date_sub_days d 1 = Ret (prev_day d).
Proof.
  intros Hv Ho. pose proof (toordinal_bounds d Hv) as B.
  unfold valid_date in Hv. apply andb_prop in Hv as [Hc _].
  destruct (prev_day_ordinal d Hc Ho) as [Hp Hq].
  unfold date_sub_days. cbv zeta.
  replace ((0 <? toordinal d - 1) && (toordinal d - 1 <=? _MAXORDINAL)) with true.
  - rewrite <- Hq, ord2ymd_toordinal by exact Hp. reflexivity.
  - symmetry. apply andb_true_intro. split; [apply Z.ltb_lt | apply Z.leb_le]; lia.
Qed.

Lemma toordinal_year_ge_2 (d : date) :
  civil_date d = true -> 2 <= year d -> 1 < toordinal d.
Proof.
  intros Hc Hy. pose proof (civil_date_bounds d Hc) as (_ & Hm & Hd).
  pose proof (days_before_month_bounds (year d) (month d) Hm) as [B1 _].
  unfold toordinal, _ymd2ord.
  assert (1 <= _days_before_year (year d)).
  { unfold _days_before_year. cbv zeta. Z.div_mod_to_equations. lia. }
  lia.
Qed.

End CalendarFacts.
Import CalendarFacts.

(** ** The port check *)

Lemma int_of_string_raises (m : Z) (s : string) (e : exn) :
  int_of_string m s = Raise e -> e = ValueError.
Proof.
  unfold int_of_string.
  destruct (strip (list_ascii_of_string s)) as [| c rest].
  - cbn. congruence.
  - destruct (Ascii.eqb c "-"); [| destruct (Ascii.eqb c "+")];
      match goal with
      | |- context [parse_digits ?b] => destruct (parse_digits b) as [[n k] |]
      end;
      try match goal with
          | |- context [if ?c then _ else _] => destruct c
          end; congruence.
Qed.

Lemma getitem_string_raises (s : string) (i : Z) (e : exn) :
  py_getitem (VStr s) i = Raise e -> e = IndexError.
Proof.
  unfold py_getitem. cbv zeta.
  destruct ((0 <=? _) && _); [destruct (String.get _ s) |]; congruence.
Qed.

Lemma getitem_string_below (s : string) (i : Z) :
  i < - Z.of_nat (String.length s) -> py_getitem (VStr s) i = Raise IndexError.
Proof.
  intros H. unfold py_getitem. cbv zeta.
  destruct (Z.ltb_spec i 0); [| lia].
  destruct (Z.leb_spec 0 (i + Z.of_nat (String.length s))); [lia | reflexivity].
Qed.

(** What [is_port_free] computes on two strings, in terms of [int(port)]. *)
Lemma is_port_free_strings (E : env) (portstatur port : string) :
  is_port_free E (VStr portstatur) (VStr port)
  = match int_of_string (int_max_str_digits E) port with
    | Raise _ => Ret false
    | Ret i =>
        if Z.of_nat (String.length portstatur) <=? i then Ret false
        else match py_getitem (VStr portstatur) i with
             | Ret c => Ret (py_eq_str c "0")
             | Raise _ => Ret false
             end
    end.
Proof.
  unfold is_port_free, py_int, py_len, try_except, rbind.
  destruct (int_of_string (int_max_str_digits E) port) as [i | e] eqn:P.
  - destruct (Z.of_nat (String.length portstatur) <=? i); [reflexivity|].
    destruct (py_getitem (VStr portstatur) i) as [c | e] eqn:G; [reflexivity|].
    apply getitem_string_raises in G. subst e. reflexivity.
  - apply int_of_string_raises in P. subst e. reflexivity.
Qed.

Lemma py_eq_str_false (c : value) (s : string) :
  c <> VStr s -> py_eq_str c s = false.
Proof.
  intros H. destruct c; try reflexivity. cbn.
  destruct (String.eqb_spec s0 s); [subst; congruence | reflexivity].
Qed.

(** C3. [is_port_free] answers true for the port index "-1", which does
    not parse as a non-negative integer: [int] reads it as -1 and the
    subscript [portstatur[-1]] is the last character, here "0".  The check
    [port_index >= len(portstatur)] guards the upper end of the range only. *)
Theorem is_port_free_negative_index (E : env) :
  int_of_string (int_max_str_digits E) "-1" = Ret (-1)
  /\ is_port_free E (VStr "10") (VStr "-1") = Ret true.
Proof.
  assert (P : int_of_string (int_max_str_digits E) "-1" = Ret (-1)).
  { cbv -[Z.ltb int_max_str_digits].
    destruct (Z.ltb_spec 0 (int_max_str_digits E)); [| reflexivity].
    destruct (Z.ltb_spec (int_max_str_digits E) 1); [lia | reflexivity]. }
  split; [exact P |].
  rewrite is_port_free_strings, P. reflexivity.
Qed.

(** C4. [is_port_free] never raises on two strings: it returns a boolean,
    and that boolean is false when [int(port)] fails, when the index is at
    or past the length of the status string, when the subscript is out of
    range below, and when the character read is not "0". *)
Theorem is_port_free_total (E : env) (portstatur port : string) :
  exists free : bool,
    is_port_free E (VStr portstatur) (VStr port) = Ret free
    /\ (forall e, int_of_string (int_max_str_digits E) port = Raise e -> free = false)
    /\ (forall i, int_of_string (int_max_str_digits E) port = Ret i ->
          (Z.of_nat (String.length portstatur) <= i -> free = false)
          /\ (i < - Z.of_nat (String.length portstatur) -> free = false)
          /\ (forall c, py_getitem (VStr portstatur) i = Ret c ->
                c <> VStr "0" -> free = false)).
Proof.
  rewrite is_port_free_strings.
  destruct (int_of_string (int_max_str_digits E) port) as [i | e] eqn:P.
  - destruct (Z.leb_spec (Z.of_nat (String.length portstatur)) i) as [L | L].
    + exists false. repeat split; try discriminate; auto.
    + destruct (py_getitem (VStr portstatur) i) as [c | e] eqn:G.
      * exists (py_eq_str c "0"). split; [reflexivity|].
        split; [discriminate|]. intros i' [= <-]. repeat split.
        -- lia.
        -- intros B. rewrite (getitem_string_below _ _ B) in G. discriminate.
        -- intros c' G' N. assert (c' = c) by congruence. subst c'.
           now apply py_eq_str_false.
      * exists false. repeat split; try discriminate; auto.
  - exists false. repeat split; try discriminate; auto.
Qed.

(** ** The matcher *)

Lemma lex_compare_refl (a : list Z) : lex_compare a a = Eq.
Proof.
  induction a as [| x a IH]; [reflexivity|].
  cbn. now rewrite Z.compare_refl.
Qed.

Lemma dt_le_refl (t : datetime) : dt_le t t = true.
Proof. unfold dt_le. now rewrite lex_compare_refl. Qed.

Lemma dt_lt_le (a b : datetime) : dt_lt a b = true -> dt_le a b = true.
Proof.
  unfold dt_lt, dt_le. destruct (lex_compare _ _); congruence.
Qed.

(** One record of the typed history: the loop goes on to the next one
    unless the record has the outage code and an end time; then the
    conversion of the end time raises, or the record is returned when it
    ended in the window. *)
Lemma find_in_window_cons (cfg : config) (s e : datetime) (r : ChargeRecord)
    (rest : list value) (tr : trace) :
  fst (find_in_window cfg s e (record_value r :: rest) tr)
  = if endtype r =? POWER_OFF_END_TYPE cfg then
      match enddt r with
      | Some t =>
          match fromtimestamp_ms t with
          | Ret end_time =>
              if dt_le s end_time && dt_le end_time e then Ret (record_value r)
              else fst (find_in_window cfg s e rest tr)
          | Raise ex => Raise ex
          end
      | None => fst (find_in_window cfg s e rest tr)
      end
    else fst (find_in_window cfg s e rest tr).
Proof.
  cbn [find_in_window]. unfold bind, lift, log, emit, ret.
  change (py_get (record_value r) "endtype" VNone) with (Ret (VInt (endtype r))).
  change (py_get (record_value r) "enddt" VNone)
    with (Ret (match enddt r with Some t => VInt t | None => VNone end)).
  cbn [py_eq_int].
  destruct (endtype r =? POWER_OFF_END_TYPE cfg); cbn [negb]; [| reflexivity].
  destruct (enddt r) as [t |]; cbn [is_none py_fromtimestamp_ms]; [| reflexivity].
  destruct (fromtimestamp_ms t) as [end_time | ex]; [| reflexivity].
  destruct (dt_le s end_time && dt_le end_time e); reflexivity.
Qed.

Lemma ended_in_window_spec (s e : datetime) (code : Z) (r : ChargeRecord) :
  ended_in_window s e code r = true
  <-> endtype r = code
      /\ exists t end_time,
           enddt r = Some t /\ fromtimestamp_ms t = Ret end_time
           /\ dt_le s end_time = true /\ dt_le end_time e = true.
Proof.
  unfold ended_in_window. rewrite andb_true_iff, Z.eqb_eq. split.
  - intros [Ht H]. split; [exact Ht|].
    destruct (enddt r) as [t |]; [| discriminate].
    destruct (fromtimestamp_ms t) as [end_time | ex] eqn:Ft; [| discriminate].
    apply andb_prop in H as [H1 H2]. now exists t, end_time.
  - intros [Ht (t & end_time & -> & -> & H1 & H2)].
    split; [exact Ht | now rewrite H1, H2].
Qed.

Lemma refused_instant_spec (code : Z) (r : ChargeRecord) :
  refused_instant code r = true
  <-> endtype r = code
      /\ exists t ex, enddt r = Some t /\ fromtimestamp_ms t = Raise ex.
Proof.
  unfold refused_instant. rewrite andb_true_iff, Z.eqb_eq. split.
  - intros [Ht H]. split; [exact Ht|].
    destruct (enddt r) as [t |]; [| discriminate].
    destruct (fromtimestamp_ms t) as [end_time | ex] eqn:Ft; [discriminate |].
    now exists t, ex.
  - intros [Ht (t & ex & -> & ->)]. now split.
Qed.

(** The loop passes a record that neither ended in the window nor has an
    end time that is refused. *)
Lemma find_in_window_passes (cfg : config) (s e : datetime) (r : ChargeRecord)
    (rest : list value) (tr : trace) :
  passed_over s e (POWER_OFF_END_TYPE cfg) r = true ->
  fst (find_in_window cfg s e (record_value r :: rest) tr)
  = fst (find_in_window cfg s e rest tr).
Proof.
  unfold passed_over, ended_in_window, refused_instant. intros H.
  rewrite find_in_window_cons.
  destruct (endtype r =? POWER_OFF_END_TYPE cfg); [| reflexivity].
  destruct (enddt r) as [t |]; [| reflexivity].
  destruct (fromtimestamp_ms t) as [end_time | ex]; [| discriminate].
  destruct (dt_le s end_time && dt_le end_time e); [discriminate | reflexivity].
Qed.

(** The three ways the loop ends: past the last record with nothing, at
    the first record that ended in the window with that record, at the
    first record whose end time is refused with the exception. *)
Lemma find_in_window_scan (cfg : config) (s e : datetime)
    (records : list ChargeRecord) (tr : trace) :
  let code := POWER_OFF_END_TYPE cfg in
  let found := fst (find_in_window cfg s e (map record_value records) tr) in
  (found = Ret VNone
   /\ Forall (fun r => passed_over s e code r = true) records)
  \/ (exists before r after,
        records = before ++ r :: after
        /\ Forall (fun r' => passed_over s e code r' = true) before
        /\ ended_in_window s e code r = true
        /\ found = Ret (record_value r))
  \/ (exists before r after t ex,
        records = before ++ r :: after
        /\ Forall (fun r' => passed_over s e code r' = true) before
        /\ endtype r = code /\ enddt r = Some t
        /\ fromtimestamp_ms t = Raise ex
        /\ found = Raise ex).
Proof.
  cbv zeta. induction records as [| r rest IH].
  - left. split; [reflexivity | constructor].
  - cbn [map].
    destruct (passed_over s e (POWER_OFF_END_TYPE cfg) r) eqn:Hp.
    + rewrite find_in_window_passes by exact Hp.
      destruct IH as [[Hn Hall] | [(before & x & after & -> & Hb & Hx & Hf)
                                  | (before & x & after & t & ex & -> & Hb & Hc & Ht & Hr & Hf)]].
      * left. split; [exact Hn | now constructor].
      * right. left. exists (r :: before), x, after.
        repeat split; [now constructor | exact Hx | exact Hf].
      * right. right. exists (r :: before), x, after, t, ex.
        repeat split; try assumption. now constructor.
    + rewrite find_in_window_cons. revert Hp.
      unfold passed_over, ended_in_window, refused_instant.
      destruct (Z.eqb_spec (endtype r) (POWER_OFF_END_TYPE cfg)) as [Hc | Hc];
        [| discriminate].
      destruct (enddt r) as [t |] eqn:Ht; [| discriminate].
      destruct (fromtimestamp_ms t) as [end_time | ex] eqn:Hr.
      * destruct (dt_le s end_time && dt_le end_time e) eqn:Hw; [| discriminate].
        intros _. right. left. exists [], r, rest.
        repeat split; [constructor |].
        unfold ended_in_window. rewrite Ht, Hr, Hw.
        now rewrite (proj2 (Z.eqb_eq _ _) Hc).
      * intros _. right. right. exists [], r, rest, t, ex.
        repeat split; try assumption. constructor.
Qed.

(** C1. The loop of [find_power_off_record] over a history, for a window
    [[s, e]] with [s < e] and an outage code.  When [fromtimestamp] accepts
    the end time of every record that has the outage code, the loop returns
    a record exactly when some record has the outage code and an end time
    that, converted to the zone, lies in [[s, e]].  In general the loop
    stops at the first record that ended in the window, which it returns,
    or that has the outage code and an end time [fromtimestamp] refuses,
    where the exception leaves it; it returns nothing ([None]) when no
    record stops it (the empty history included).  A record that ended
    exactly at [s] or exactly at [e] is in the window; and
    [find_power_off_record] is this loop on the window it computes. *)
Theorem find_power_off_record_first_in_window (cfg : config) (s e : datetime)
    (records : list ChargeRecord) (tr : trace) :
  dt_lt s e = true ->
  let code := POWER_OFF_END_TYPE cfg in
  let found := fst (find_in_window cfg s e (map record_value records) tr) in
  (Forall (fun r => refused_instant code r = false) records ->
   ((exists r, found = Ret (record_value r))
    <-> (exists r,
           In r records /\ endtype r = code
           /\ exists t end_time,
                enddt r = Some t /\ fromtimestamp_ms t = Ret end_time
                /\ dt_le s end_time = true /\ dt_le end_time e = true)))
  /\ ((found = Ret VNone
       /\ Forall (fun r => passed_over s e code r = true) records)
      \/ (exists before r after,
            records = before ++ r :: after
            /\ Forall (fun r' => passed_over s e code r' = true) before
            /\ ended_in_window s e code r = true
            /\ found = Ret (record_value r))
      \/ (exists before r after t ex,
            records = before ++ r :: after
            /\ Forall (fun r' => passed_over s e code r' = true) before
            /\ endtype r = code /\ enddt r = Some t
            /\ fromtimestamp_ms t = Raise ex
            /\ found = Raise ex))
  /\ (forall r t,
        endtype r = code -> enddt r = Some t ->
        fromtimestamp_ms t = Ret s \/ fromtimestamp_ms t = Ret e ->
        ended_in_window s e code r = true)
  /\ (forall E tr0,
        power_off_window E cfg tr0 = (Ret (s, e), tr) ->
        find_power_off_record E cfg (map record_value records) tr0
        = find_in_window cfg s e (map record_value records) tr).
Proof.
  intros Hse code found.
  pose proof (find_in_window_scan cfg s e records tr) as Scan.
  cbv zeta in Scan. fold code found in Scan.
  split; [| split; [exact Scan | split]].
  - intros Hok. split.
    + intros [r0 Hr0].
      destruct Scan as [[Hn _] | [(before & x & after & -> & _ & Hx & Hf)
                                 | (before & x & after & t & ex & _ & _ & _ & _ & _ & Hf)]].
      * rewrite Hn in Hr0. discriminate.
      * exists x. split; [apply in_or_app; right; left; reflexivity |].
        now apply ended_in_window_spec.
      * rewrite Hf in Hr0. discriminate.
    + intros (r0 & Hin & Hspec). apply ended_in_window_spec in Hspec.
      destruct Scan as [[_ Hall] | [(before & x & after & _ & _ & _ & Hf)
                                   | (before & x & after & t & ex & -> & _ & Hc & Ht & Hr & _)]].
      * rewrite Forall_forall in Hall. specialize (Hall r0 Hin).
        unfold passed_over in Hall. rewrite Hspec in Hall. discriminate.
      * now exists x.
      * rewrite Forall_forall in Hok.
        assert (Hx : refused_instant code x = false)
          by (apply Hok, in_or_app; right; left; reflexivity).
        assert (Hy : refused_instant code x = true)
          by (apply refused_instant_spec; split; [exact Hc | now exists t, ex]).
        congruence.
  - intros r t Ht Hd [Hs | He]; apply ended_in_window_spec; (split; [exact Ht|]).
    + exists t, s. repeat split; auto using dt_le_refl, dt_lt_le.
    + exists t, e. repeat split; auto using dt_le_refl, dt_lt_le.
  - intros E tr0 Hw. unfold find_power_off_record, bind. now rewrite Hw.
Qed.

Lemma find_power_off_record_first_in_window_witness :
  dt_lt demo_window_start demo_window_end = true
  /\ ((exists r,
         fst (find_in_window demo_cfg demo_window_start demo_window_end
                (map record_value [demo_record_normal; demo_record]) [])
         = Ret (record_value r))
      <-> (exists r,
             In r [demo_record_normal; demo_record]
             /\ endtype r = POWER_OFF_END_TYPE demo_cfg
             /\ exists t end_time,
                  enddt r = Some t /\ fromtimestamp_ms t = Ret end_time
                  /\ dt_le demo_window_start end_time = true
                  /\ dt_le end_time demo_window_end = true)).
Proof.
  assert (H1 : dt_lt demo_window_start demo_window_end = true) by reflexivity.
  split; [exact H1 |].
  refine (proj1 (find_power_off_record_first_in_window demo_cfg
                   demo_window_start demo_window_end
                   [demo_record_normal; demo_record] [] H1) _).
  repeat constructor.
Defined.

(** Without the condition on the end times the equivalence fails: in the
    history [far_record; demo_record] the second record has the outage code
    and ended in the window, yet no record is returned, because the
    conversion of the end time of the first one raises [ValueError] (its
    year is 292278994) and nothing in [find_power_off_record] catches it. *)
Lemma find_power_off_record_unrepresentable_counterexample :
  dt_lt demo_window_start demo_window_end = true
  /\ In demo_record [far_record; demo_record]
  /\ ended_in_window demo_window_start demo_window_end
       (POWER_OFF_END_TYPE demo_cfg) demo_record = true
  /\ find_power_off_record scenario_A demo_cfg
       (map record_value [far_record; demo_record]) []
     = (Raise ValueError,
        [EvNow; EvLog (LWindow demo_window_start demo_window_end)])
  /\ ~ (exists r,
          fst (find_in_window demo_cfg demo_window_start demo_window_end
                 (map record_value [far_record; demo_record]) [])
          = Ret (record_value r)).
Proof.
  split; [reflexivity |]. split; [right; left; reflexivity |].
  split; [vm_compute; reflexivity |]. split; [vm_compute; reflexivity |].
  intros [r H]. vm_compute in H. discriminate.
Qed.

(** ** The window *)

Lemma date_eta (d : date) : mkDate (year d) (month d) (day d) = d.
Proof. now destruct d. Qed.

Lemma prev_day_year_le (d : date) : year (prev_day d) <= year d.
Proof.
  unfold prev_day.
  destruct (1 <? day d); [| destruct (1 <? month d)]; cbn [year]; lia.
Qed.

Lemma prev_day_lex (d : date) (a b : list Z) :
  lex_compare (year (prev_day d) :: month (prev_day d) :: day (prev_day d) :: a)
              (year d :: month d :: day d :: b) = Lt.
Proof.
  unfold prev_day.
  destruct (Z.ltb_spec 1 (day d)); [| destruct (Z.ltb_spec 1 (month d))];
    cbn [year month day lex_compare]; rewrite ?Z.compare_refl.
  - replace (day d - 1 ?= day d) with Lt by (symmetry; apply Z.compare_lt_iff; lia).
    reflexivity.
  - replace (month d - 1 ?= month d) with Lt
      by (symmetry; apply Z.compare_lt_iff; lia).
    reflexivity.
  - replace (year d - 1 ?= year d) with Lt by (symmetry; apply Z.compare_lt_iff; lia).
    reflexivity.
Qed.

Lemma valid_datetime_parts (t : datetime) :
  valid_datetime t = true ->
  valid_date (dt_date t) = true
  /\ 0 <= hour t <= 23 /\ 0 <= minute t <= 59
  /\ 0 <= second t <= 59 /\ 0 <= microsecond t <= 999999.
Proof.
  unfold valid_datetime. intros H.
  do 8 (apply andb_prop in H as [H ?]).
  repeat match goal with
         | H : (_ <=? _) = true |- _ => apply Z.leb_le in H
         end.
  repeat split; assumption.
Qed.

Lemma valid_datetime_intro (d : date) (hh mm : Z) :
  valid_date d = true -> 0 <= hh <= 23 -> 0 <= mm <= 59 ->
  valid_datetime (mkDatetime d hh mm 0 0) = true.
Proof.
  intros Hd Hh Hm. unfold valid_datetime. cbn [dt_date hour minute second microsecond].
  rewrite Hd. cbn [andb].
  repeat (apply andb_true_intro; split); apply Z.leb_le; lia.
Qed.

Lemma valid_window_config_parts (cfg : config) :
  valid_window_config cfg = true ->
  0 <= POWER_OFF_WINDOW_START_HOUR cfg <= 23
  /\ 0 <= POWER_OFF_WINDOW_START_MINUTE cfg <= 59
  /\ 0 <= POWER_OFF_WINDOW_END_HOUR cfg <= 23
  /\ 0 <= POWER_OFF_WINDOW_END_MINUTE cfg <= 59.
Proof.
  unfold valid_window_config. intros H.
  repeat (apply andb_prop in H as [H ?]).
  repeat match goal with
         | H : (_ <=? _) = true |- _ => apply Z.leb_le in H
         end.
  lia.
Qed.

Lemma valid_date_prev_day (d : date) :
  valid_date d = true -> 1 < toordinal d -> valid_date (prev_day d) = true.
Proof.
  unfold valid_date. intros H Ho. apply andb_prop in H as [Hc Hy].
  apply Z.leb_le in Hy. destruct (prev_day_ordinal d Hc Ho) as [Hp _].
  rewrite Hp. cbn [andb]. apply Z.leb_le.
  pose proof (prev_day_year_le d). lia.
Qed.

(** The run of lines 157 to 173 on a valid clock and configuration. *)
Lemma power_off_window_run (E : env) (cfg : config) (tr : trace) :
  valid_window_config cfg = true ->
  valid_datetime (clock E tr) = true ->
  2 <= year (dt_date (clock E tr)) ->
  let today := dt_date (clock E tr) in
  let ws := mkDatetime (prev_day today) (POWER_OFF_WINDOW_START_HOUR cfg)
                       (POWER_OFF_WINDOW_START_MINUTE cfg) 0 0 in
  let we := mkDatetime today (POWER_OFF_WINDOW_END_HOUR cfg)
                       (POWER_OFF_WINDOW_END_MINUTE cfg) 0 0 in
  power_off_window E cfg tr
  = (Ret (ws, we), (tr ++ [EvNow]) ++ [EvLog (LWindow ws we)]).
Proof.
  intros Hcfg Hnow Hy today ws we.
  destruct (valid_window_config_parts cfg Hcfg) as (Hsh & Hsm & Heh & Hem).
  destruct (valid_datetime_parts _ Hnow) as (Hd & _).
  assert (Hc : civil_date today = true).
  { unfold valid_date in Hd. now apply andb_prop in Hd as [Hc _]. }
  assert (Ho : 1 < toordinal today)
    by (apply toordinal_year_ge_2; assumption).
  unfold power_off_window, bind, datetime_now, lift, log, emit, ret.
  fold today. rewrite (date_sub_one_day today Hd Ho).
  unfold make_datetime. rewrite !date_eta.
  rewrite (valid_datetime_intro (prev_day today))
    by (try apply valid_date_prev_day; assumption).
  rewrite (valid_datetime_intro today) by assumption.
  reflexivity.
Qed.

Lemma within_day_span_iff (ws we : datetime) (midnight : Z) :
  local_seconds ws <= midnight <= local_seconds we ->
  within_day_span ws we midnight
  <-> local_seconds we - local_seconds ws <= 25 * 3600.
Proof.
  intros B. unfold within_day_span. split.
  - intros (a & b & _ & Hab & Ha & Hb). lia.
  - intros H.
    exists (local_seconds we - 25 * 3600), (local_seconds we). lia.
Qed.

(** C9, as the code has it.  On a valid configuration and clock the window
    starts yesterday (the day before today, one ordinal less) at the
    configured start time and ends today at the configured end time; the
    start is before the end and midnight lies between them; the length is 24
    hours plus the difference of the two configured times of day, at least a
    minute and at most 47 h 59 min; and both ends fit in a stretch of 24 to
    25 hours around midnight exactly when the end time of day is at most an
    hour after the start time of day. *)
Theorem power_off_window_brackets_midnight (E : env) (cfg : config) (tr : trace) :
  valid_window_config cfg = true ->
  valid_datetime (clock E tr) = true ->
  2 <= year (dt_date (clock E tr)) ->
  let now := clock E tr in
  let today := dt_date now in
  let start_minutes :=
    POWER_OFF_WINDOW_START_HOUR cfg * 60 + POWER_OFF_WINDOW_START_MINUTE cfg in
  let end_minutes :=
    POWER_OFF_WINDOW_END_HOUR cfg * 60 + POWER_OFF_WINDOW_END_MINUTE cfg in
  exists window_start window_end,
    fst (power_off_window E cfg tr) = Ret (window_start, window_end)
    /\ window_start
       = mkDatetime (prev_day today) (POWER_OFF_WINDOW_START_HOUR cfg)
                    (POWER_OFF_WINDOW_START_MINUTE cfg) 0 0
    /\ window_end
       = mkDatetime today (POWER_OFF_WINDOW_END_HOUR cfg)
                    (POWER_OFF_WINDOW_END_MINUTE cfg) 0 0
    /\ toordinal (prev_day today) = toordinal today - 1
    /\ dt_lt window_start window_end = true
    /\ local_seconds window_start < midnight_of now <= local_seconds window_end
    /\ local_seconds window_end - local_seconds window_start
       = 24 * 3600 + (end_minutes - start_minutes) * 60
    /\ 60 <= local_seconds window_end - local_seconds window_start <= 48 * 3600 - 60
    /\ (within_day_span window_start window_end (midnight_of now)
        <-> end_minutes - start_minutes <= 60).
Proof.
  intros Hcfg Hnow Hy. cbv zeta.
  pose proof (power_off_window_run E cfg tr Hcfg Hnow Hy) as Run. cbv zeta in Run.
  unfold midnight_of.
  set (today := dt_date (clock E tr)) in *.
  set (start_minutes :=
         POWER_OFF_WINDOW_START_HOUR cfg * 60 + POWER_OFF_WINDOW_START_MINUTE cfg).
  set (end_minutes :=
         POWER_OFF_WINDOW_END_HOUR cfg * 60 + POWER_OFF_WINDOW_END_MINUTE cfg).
  destruct (valid_window_config_parts cfg Hcfg) as (Hsh & Hsm & Heh & Hem).
  destruct (valid_datetime_parts _ Hnow) as (Hd & _). fold today in Hd.
  assert (Hc : civil_date today = true).
  { unfold valid_date in Hd. now apply andb_prop in Hd as [Hc _]. }
  assert (Ho : 1 < toordinal today) by (apply toordinal_year_ge_2; assumption).
  destruct (prev_day_ordinal today Hc Ho) as [_ Hp].
  set (ws := mkDatetime (prev_day today) (POWER_OFF_WINDOW_START_HOUR cfg)
                        (POWER_OFF_WINDOW_START_MINUTE cfg) 0 0) in *.
  set (we := mkDatetime today (POWER_OFF_WINDOW_END_HOUR cfg)
                        (POWER_OFF_WINDOW_END_MINUTE cfg) 0 0) in *.
  exists ws, we.
  split; [now rewrite Run|].
  split; [reflexivity|]. split; [reflexivity|]. split; [exact Hp|].
  assert (Hs : local_seconds ws
               = (toordinal today - 2) * 86400 + start_minutes * 60).
  { unfold local_seconds, ws, start_minutes.
    cbn [dt_date hour minute second]. rewrite Hp. lia. }
  assert (He : local_seconds we
               = (toordinal today - 1) * 86400 + end_minutes * 60).
  { unfold local_seconds, we, end_minutes.
    cbn [dt_date hour minute second]. lia. }
  split.
  { unfold dt_lt, dt_fields, ws, we. cbn [dt_date hour minute second microsecond].
    now rewrite prev_day_lex. }
  split; [unfold start_minutes, end_minutes in *; lia|].
  split; [lia|].
  split; [unfold start_minutes, end_minutes in *; lia|].
  rewrite within_day_span_iff by (unfold start_minutes, end_minutes in *; lia).
  lia.
Qed.

Lemma power_off_window_brackets_midnight_witness :
  valid_window_config demo_cfg = true
  /\ valid_datetime (clock scenario_A []) = true
  /\ 2 <= year (dt_date (clock scenario_A []))
  /\ exists window_start window_end,
       fst (power_off_window scenario_A demo_cfg [])
       = Ret (window_start, window_end)
       /\ dt_lt window_start window_end = true
       /\ within_day_span window_start window_end (midnight_of demo_now).
Proof.
  assert (H1 : valid_window_config demo_cfg = true) by reflexivity.
  assert (H2 : valid_datetime (clock scenario_A []) = true) by reflexivity.
  assert (H3 : 2 <= year (dt_date (clock scenario_A []))) by (cbn; lia).
  split; [exact H1 | split; [exact H2 | split; [exact H3 |]]].
  destruct (power_off_window_brackets_midnight scenario_A demo_cfg [] H1 H2 H3)
    as (ws & we & Hw & _ & _ & _ & Hlt & _ & _ & _ & Hspan).
  exists ws, we. split; [exact Hw | split; [exact Hlt |]].
  apply Hspan. cbn. lia.
Defined.

(** C9, as stated, fails: with the valid configuration 00:00 to 23:59 the
    window runs from yesterday 00:00 to today 23:59, and no stretch of 24 to
    25 hours holds both ends. *)
Lemma power_off_window_span_counterexample :
  valid_window_config wide_cfg = true
  /\ valid_datetime demo_now = true
  /\ exists window_start window_end,
       fst (power_off_window scenario_A wide_cfg [])
       = Ret (window_start, window_end)
       /\ ~ within_day_span window_start window_end (midnight_of demo_now).
Proof.
  split; [reflexivity | split; [reflexivity |]].
  exists (mkDatetime (mkDate 2024 3 14) 0 0 0 0), (mkDatetime (mkDate 2024 3 15) 23 59 0 0).
  split; [reflexivity|].
  intros (a & b & Hm & Hab & Ha & Hb).
  change (local_seconds (mkDatetime (mkDate 2024 3 14) 0 0 0 0))
    with 63845971200 in Ha.
  change (local_seconds (mkDatetime (mkDate 2024 3 15) 23 59 0 0))
    with 63846143940 in Hb.
  lia.
Qed.

(** ** Traces only grow *)

(** [appends P c]: whatever the trace, [c] adds events to its end and every
    event it adds satisfies [P]. *)
Definition appends {A} (P : event -> Prop) (c : M A) : Prop :=
  forall tr, exists rest, snd (c tr) = tr ++ rest /\ Forall P rest.

Section Appends.

Variable P : event -> Prop.

Lemma appends_ret {A} (a : A) : appends P (ret a).
Proof. intros tr. exists []. now rewrite app_nil_r. Qed.

Lemma appends_lift {A} (r : result A) : appends P (lift r).
Proof. intros tr. exists []. now rewrite app_nil_r. Qed.

Lemma appends_emit (ev : event) : P ev -> appends P (emit ev).
Proof. intros H tr. exists [ev]. split; [reflexivity | now constructor]. Qed.

Lemma appends_log (l : log_line) : P (EvLog l) -> appends P (log l).
Proof. apply appends_emit. Qed.

Lemma appends_bind {A B} (c : M A) (k : A -> M B) :
  appends P c -> (forall a, appends P (k a)) -> appends P (bind c k).
Proof.
  intros Hc Hk tr. unfold bind. destruct (Hc tr) as (r1 & E1 & F1).
  destruct (c tr) as [[a | e] tr1]; cbn [snd] in E1; subst tr1.
  - destruct (Hk a (tr ++ r1)) as (r2 & E2 & F2).
    exists (r1 ++ r2). rewrite E2, app_assoc. split; [reflexivity|].
    apply Forall_app. now split.
  - now exists r1.
Qed.

Lemma appends_try_except {A} (c : M A) (h : exn -> M A) :
  appends P c -> (forall e, appends P (h e)) -> appends P (try_except_Exception c h).
Proof.
  intros Hc Hh tr. unfold try_except_Exception. destruct (Hc tr) as (r1 & E1 & F1).
  destruct (c tr) as [[a | e] tr1]; cbn [snd] in E1; subst tr1.
  - now exists r1.
  - destruct (Hh e (tr ++ r1)) as (r2 & E2 & F2).
    exists (r1 ++ r2). rewrite E2, app_assoc. split; [reflexivity|].
    apply Forall_app. now split.
Qed.

Lemma appends_now (E : env) : P EvNow -> appends P (datetime_now E).
Proof. intros H tr. exists [EvNow]. split; [reflexivity | now constructor]. Qed.

Lemma appends_post (E : env) (cfg : config) (url : string) (data : dict) :
  P (EvPost url data (HEADERS cfg)) -> appends P (session_post E cfg url data).
Proof.
  intros H tr. exists [EvPost url data (HEADERS cfg)].
  split; [reflexivity | now constructor].
Qed.

End Appends.

(** An event that is none of the controller's own. *)
Definition quiet (ev : event) : Prop := control_of ev = None.

(** One step of a proof of [appends quiet c], chosen by the head of [c]. *)
Ltac appends_step :=
  lazymatch goal with
  | |- appends _ (ret _) => apply appends_ret
  | |- appends _ (lift _) => apply appends_lift
  | |- appends _ (log _) => apply appends_log; reflexivity
  | |- appends _ (emit _) => apply appends_emit; reflexivity
  | |- appends _ (datetime_now _) => apply appends_now; reflexivity
  | |- appends _ (session_post _ _ _ _) => apply appends_post; reflexivity
  | |- appends _ (bind _ _) => apply appends_bind; [| intros ?]
  | |- appends _ (if ?b then _ else _) => destruct b
  | |- appends _ (match ?x with _ => _ end) => destruct x
  end.

Lemma get_user_info_quiet (E : env) (cfg : config) :
  appends quiet (get_user_info E cfg).
Proof. unfold get_user_info. repeat appends_step. Qed.

Lemma get_charge_log_quiet (E : env) (cfg : config) (term : string) :
  appends quiet (get_charge_log E cfg term).
Proof. unfold get_charge_log. repeat appends_step. Qed.

Lemma get_device_info_quiet (E : env) (cfg : config) (devaddress : string) :
  appends quiet (get_device_info E cfg devaddress).
Proof. unfold get_device_info. repeat appends_step. Qed.

Lemma begin_charge_quiet (E : env) (cfg : config) (devaddress : string)
    (port money device_info : value) :
  appends quiet (begin_charge E cfg devaddress port money device_info).
Proof. unfold begin_charge. repeat appends_step. Qed.

Lemma find_in_window_quiet (cfg : config) (s e : datetime) (logs : list value) :
  appends quiet (find_in_window cfg s e logs).
Proof.
  induction logs as [| record rest IH]; cbn [find_in_window].
  - apply appends_ret.
  - repeat (exact IH || appends_step).
Qed.

Lemma power_off_window_quiet (E : env) (cfg : config) :
  appends quiet (power_off_window E cfg).
Proof. unfold power_off_window. repeat appends_step. Qed.

Lemma find_power_off_record_quiet (E : env) (cfg : config) (logs : list value) :
  appends quiet (find_power_off_record E cfg logs).
Proof.
  unfold find_power_off_record. apply appends_bind.
  - apply power_off_window_quiet.
  - intros w. apply find_in_window_quiet.
Qed.

Ltac quiet_step :=
  lazymatch goal with
  | |- appends _ (get_user_info _ _) => apply get_user_info_quiet
  | |- appends _ (get_charge_log _ _ _) => apply get_charge_log_quiet
  | |- appends _ (get_device_info _ _ _) => apply get_device_info_quiet
  | |- appends _ (begin_charge _ _ _ _ _ _) => apply begin_charge_quiet
  | |- appends _ (find_power_off_record _ _ _) => apply find_power_off_record_quiet
  | |- _ => appends_step
  end.

Lemma fetch_charge_history_quiet (E : env) (cfg : config) :
  appends quiet (fetch_charge_history E cfg).
Proof. unfold fetch_charge_history. repeat quiet_step. Qed.

Lemma start_charge_quiet (E : env) (cfg : config) (devaddress : string)
    (port balance device_info : value) :
  appends quiet (start_charge E cfg devaddress port balance device_info).
Proof. unfold start_charge. repeat quiet_step. Qed.

Lemma recover_quiet (E : env) (cfg : config) (balance : value) :
  appends quiet (recover E cfg balance).
Proof.
  unfold recover. apply appends_bind; [apply fetch_charge_history_quiet |].
  intros logs. destruct logs as [| record rest]; [apply appends_ret |].
  repeat lazymatch goal with
         | |- appends _ (start_charge _ _ _ _ _ _) => apply start_charge_quiet
         | |- _ => quiet_step
         end.
Qed.

Lemma try_charge_body_quiet (E : env) (cfg : config) :
  appends quiet (try_charge_body E cfg).
Proof.
  unfold try_charge_body.
  repeat lazymatch goal with
         | |- appends _ (recover _ _ _) => apply recover_quiet
         | |- _ => quiet_step
         end.
Qed.

(** An attempt adds no event of the controller to the trace. *)
Lemma try_charge_quiet (E : env) (cfg : config) :
  appends quiet (try_charge E cfg).
Proof.
  unfold try_charge. apply appends_try_except.
  - apply try_charge_body_quiet.
  - intros e. apply appends_ret.
Qed.
(** ** One attempt *)

Lemma session_post_trace (E : env) (cfg : config) (url : string) (data : dict)
    (tr : trace) :
  snd (session_post E cfg url data tr) = tr ++ [EvPost url data (HEADERS cfg)].
Proof. reflexivity. Qed.

Ltac run_request :=
  unfold bind, session_post, lift, ret; cbn [fst snd];
  repeat match goal with
         | |- context [match ?x with _ => _ end] => destruct x; cbn [fst snd]
         end;
  reflexivity.

Lemma get_user_info_trace (E : env) (cfg : config) (tr : trace) :
  snd (get_user_info E cfg tr) = tr ++ [user_info_request cfg].
Proof. unfold get_user_info, user_info_request. run_request. Qed.

Lemma get_charge_log_trace (E : env) (cfg : config) (term : string) (tr : trace) :
  snd (get_charge_log E cfg term tr) = tr ++ [charge_log_request cfg term].
Proof. unfold get_charge_log, charge_log_request. run_request. Qed.

(** C8. [try_charge] always returns an outcome, one of the four of
    [ChargeResult] with a message: when the body of its [try] block returns,
    that is the outcome; when the body raises, whatever the exception and
    wherever it was raised, the outcome is [ERROR] with the message built
    from the exception, and the trace is the one the body left.  A fault of
    the first request, for one, ends the attempt this way. *)
Theorem try_charge_never_raises (E : env) (cfg : config) (tr : trace) :
  exists (outcome : ChargeResult * message) (tr' : trace),
    try_charge E cfg tr = (Ret outcome, tr')
    /\ (forall o tr'', try_charge_body E cfg tr = (Ret o, tr'') ->
          outcome = o /\ tr' = tr'')
    /\ (forall e tr'', try_charge_body E cfg tr = (Raise e, tr'') ->
          outcome = (ERROR, MsgException e) /\ tr' = tr'')
    /\ (forall e,
          post_json E (tr ++ [EvLog LFetchUserInfo])
            (BASE_URL cfg ++ "/wxn/getUserInfo")%string
            [("openId", VStr (OPEN_ID cfg)); ("areaId", VStr (AREA_ID cfg))]
          = Raise e ->
          outcome = (ERROR, MsgException e)).
Proof.
  unfold try_charge, try_except_Exception.
  destruct (try_charge_body E cfg tr) as [[o | e] tr1] eqn:B.
  - exists o, tr1. repeat split; try congruence.
    intros e He. exfalso. revert B.
    unfold try_charge_body, get_user_info, bind, log, emit, session_post, lift.
    cbn [fst snd]. rewrite He. discriminate.
  - exists (ERROR, MsgException e), tr1. repeat split; try congruence.
    intros e' He. revert B.
    unfold try_charge_body, get_user_info, bind, log, emit, session_post, lift.
    cbn [fst snd]. rewrite He. congruence.
Qed.

Ltac start_attempt :=
  unfold try_charge, try_except_Exception, try_charge_body;
  unfold bind at 1; unfold log at 1; unfold emit at 1; cbn [fst snd];
  unfold bind at 1.

Lemma py_truediv_check_int (b : Z) :
  float_overflow b 100 = false -> py_truediv_check (VInt b) = Ret tt.
Proof. intros H. cbn [py_truediv_check]. now rewrite H. Qed.

(** The attempt up to its balance check, on a user record that carries an
    integer balance whose hundredth is a float. *)
Lemma try_charge_balance (E : env) (cfg : config) (tr : trace)
    (user_info : value) (b : Z) (tr1 : trace) :
  get_user_info E cfg (tr ++ [EvLog LFetchUserInfo]) = (Ret user_info, tr1) ->
  truthy user_info = true ->
  py_get user_info "readyaccountmoney" (VInt 0) = Ret (VInt b) ->
  float_overflow b 100 = false ->
  try_charge E cfg tr
  = if b <? 100
    then (Ret (ERROR, MsgInsufficientBalance), tr1 ++ [EvLog (LBalance (VInt b))])
    else try_except_Exception (recover E cfg (VInt b))
           (fun e => ret (ERROR, MsgException e))
           (tr1 ++ [EvLog (LBalance (VInt b))]).
Proof.
  intros Hu Ht Hb Hfit. start_attempt. rewrite Hu, Ht. cbn [negb].
  unfold bind, lift, log, emit, ret.
  rewrite Hb, (py_truediv_check_int b Hfit). cbn [py_lt_int].
  destruct (b <? 100); reflexivity.
Qed.

(** The attempt on a balance whose hundredth is no float: line 222 raises
    before the balance is logged or compared. *)
Lemma try_charge_balance_overflow (E : env) (cfg : config) (tr : trace)
    (user_info : value) (b : Z) (tr1 : trace) :
  get_user_info E cfg (tr ++ [EvLog LFetchUserInfo]) = (Ret user_info, tr1) ->
  truthy user_info = true ->
  py_get user_info "readyaccountmoney" (VInt 0) = Ret (VInt b) ->
  float_overflow b 100 = true ->
  try_charge E cfg tr = (Ret (ERROR, MsgException OverflowError), tr1).
Proof.
  intros Hu Ht Hb Hover. start_attempt. rewrite Hu, Ht. cbn [negb].
  unfold bind, lift, log, emit, ret. rewrite Hb. cbn [py_truediv_check].
  now rewrite Hover.
Qed.

(** What follows a computation only adds to the trace it left. *)
Lemma bind_trace_extends {A B} (P : event -> Prop) (c : M A) (k : A -> M B)
    (tr : trace) :
  (forall a, appends P (k a)) ->
  exists rest, snd (bind c k tr) = snd (c tr) ++ rest.
Proof.
  intros Hk. unfold bind. destruct (c tr) as [[a | e] tr1]; cbn [snd].
  - destruct (Hk a tr1) as (rest & Hr & _). now exists rest.
  - exists []. now rewrite app_nil_r.
Qed.

(** Lines 227 to 232: the steps after the balance check start with reading
    the clock and asking for the history of the month. *)
Lemma fetch_charge_history_first_request (E : env) (cfg : config) (tr : trace) :
  exists more,
    snd (fetch_charge_history E cfg tr)
    = tr ++ [EvNow; EvLog (LFetchHistory (strftime_Ym (clock E tr)));
             charge_log_request cfg (strftime_Ym (clock E tr))] ++ more.
Proof.
  unfold fetch_charge_history. unfold bind at 1, datetime_now at 1.
  cbv zeta. unfold bind at 1, log at 1, emit at 1.
  match goal with
  | |- context [bind (get_charge_log E cfg ?term) ?k] =>
      destruct (bind_trace_extends quiet (get_charge_log E cfg term) k
                  ((tr ++ [EvNow]) ++ [EvLog (LFetchHistory term)]))
        as (more & Hm)
  end.
  - intros got. repeat quiet_step.
  - exists more. rewrite Hm, get_charge_log_trace, <- !app_assoc. reflexivity.
Qed.

Lemma recover_first_request (E : env) (cfg : config) (balance : value)
    (tr : trace) :
  exists more,
    snd (try_except_Exception (recover E cfg balance)
           (fun e => ret (ERROR, MsgException e)) tr)
    = tr ++ [EvNow; EvLog (LFetchHistory (strftime_Ym (clock E tr)));
             charge_log_request cfg (strftime_Ym (clock E tr))] ++ more.
Proof.
  assert (H : exists more,
             snd (recover E cfg balance tr)
             = tr ++ [EvNow; EvLog (LFetchHistory (strftime_Ym (clock E tr)));
                      charge_log_request cfg (strftime_Ym (clock E tr))] ++ more).
  { unfold recover.
    match goal with
    | |- context [bind (fetch_charge_history E cfg) ?k] =>
        destruct (bind_trace_extends quiet (fetch_charge_history E cfg) k tr)
          as (rest & Hr)
    end.
    - intros logs. destruct logs as [| record rest]; [apply appends_ret |].
      repeat lazymatch goal with
             | |- appends _ (start_charge _ _ _ _ _ _) => apply start_charge_quiet
             | |- _ => quiet_step
             end.
    - destruct (fetch_charge_history_first_request E cfg tr) as (more & Hm).
      exists (more ++ rest). rewrite Hr, Hm, <- !app_assoc. reflexivity. }
  destruct H as (more & H). exists more. rewrite <- H.
  unfold try_except_Exception.
  now destruct (recover E cfg balance tr) as [[o | e] tr'].
Qed.

(** ** The outcomes of the steps after the balance check *)

(** [c] returns only values that satisfy [Q]. *)
Definition returns_only {A} (Q : A -> Prop) (c : M A) : Prop :=
  forall tr a tr', c tr = (Ret a, tr') -> Q a.

Lemma returns_only_ret {A} (Q : A -> Prop) (a : A) : Q a -> returns_only Q (ret a).
Proof. intros H tr a' tr' [= <- _]. exact H. Qed.

Lemma returns_only_bind {A B} (Q : B -> Prop) (c : M A) (k : A -> M B) :
  (forall a, returns_only Q (k a)) -> returns_only Q (bind c k).
Proof.
  intros Hk tr b tr'. unfold bind.
  destruct (c tr) as [[a | e] tr1]; [apply Hk | discriminate].
Qed.

Lemma returns_only_try_except {A} (Q : A -> Prop) (c : M A) (h : exn -> M A) :
  returns_only Q c -> (forall e, returns_only Q (h e)) ->
  returns_only Q (try_except_Exception c h).
Proof.
  intros Hc Hh tr a tr'. unfold try_except_Exception.
  destruct (c tr) as [[a' | e] tr1] eqn:C.
  - intros [= <- _]. exact (Hc tr a' tr1 C).
  - apply Hh.
Qed.

(** The message of insufficient balance comes from the balance check only:
    no step after it returns it. *)
Lemma recover_message (E : env) (cfg : config) (balance : value) :
  returns_only (fun o => snd o <> MsgInsufficientBalance)
    (try_except_Exception (recover E cfg balance)
       (fun e => ret (ERROR, MsgException e))).
Proof.
  apply returns_only_try_except;
    [| intros e; apply returns_only_ret; discriminate].
  unfold recover, start_charge.
  repeat lazymatch goal with
         | |- returns_only _ (ret _) => apply returns_only_ret; discriminate
         | |- returns_only _ (bind _ _) => apply returns_only_bind; intros ?
         | |- returns_only _ (if ?b then _ else _) => destruct b
         | |- returns_only _ (match ?x with _ => _ end) => destruct x
         end.
Qed.

(** C5. When the user record carries an integer balance [b] whose
    hundredth is a float (line 222 formats it before the check): below 100
    the attempt ends with [ERROR] and the insufficient-balance message, and
    the only request it has made is the one for the user record (no
    history, no device, no begin-charge request); from 100 on, the attempt
    goes on with the steps after the check (lines 227 to 277): it reads the
    clock and sends the request for the history of the month, those steps
    decide its outcome, and the outcome never carries the
    insufficient-balance message.  When the hundredth of [b] is no float,
    whether [b] is below 100 or not, the attempt ends with [ERROR] and the
    [OverflowError] of line 222, before the balance is logged. *)
Theorem balance_gate (E : env) (cfg : config) (tr : trace)
    (user_info : value) (b : Z) (tr1 : trace) :
  get_user_info E cfg (tr ++ [EvLog LFetchUserInfo]) = (Ret user_info, tr1) ->
  truthy user_info = true ->
  py_get user_info "readyaccountmoney" (VInt 0) = Ret (VInt b) ->
  let fetched := tr ++ [EvLog LFetchUserInfo; user_info_request cfg] in
  let checked := fetched ++ [EvLog (LBalance (VInt b))] in
  let term := strftime_Ym (clock E checked) in
  (float_overflow b 100 = false -> b < 100 ->
     try_charge E cfg tr = (Ret (ERROR, MsgInsufficientBalance), checked))
  /\ (float_overflow b 100 = false -> 100 <= b ->
        try_charge E cfg tr
        = try_except_Exception (recover E cfg (VInt b))
            (fun e => ret (ERROR, MsgException e)) checked
        /\ (exists more,
              snd (try_charge E cfg tr)
              = checked ++ [EvNow; EvLog (LFetchHistory term);
                            charge_log_request cfg term] ++ more)
        /\ (forall outcome tr',
              try_charge E cfg tr = (Ret outcome, tr') ->
              snd outcome <> MsgInsufficientBalance))
  /\ (float_overflow b 100 = true ->
        try_charge E cfg tr = (Ret (ERROR, MsgException OverflowError), fetched)).
Proof.
  intros Hu Ht Hb fetched checked term.
  assert (T : tr1 = fetched).
  { unfold fetched.
    change [EvLog LFetchUserInfo; user_info_request cfg]
      with ([EvLog LFetchUserInfo] ++ [user_info_request cfg]).
    rewrite app_assoc, <- get_user_info_trace with (E := E). now rewrite Hu. }
  split; [| split].
  - intros Hfit H.
    rewrite (try_charge_balance E cfg tr user_info b tr1 Hu Ht Hb Hfit), T.
    destruct (Z.ltb_spec b 100); [reflexivity | lia].
  - intros Hfit H.
    rewrite (try_charge_balance E cfg tr user_info b tr1 Hu Ht Hb Hfit), T.
    destruct (Z.ltb_spec b 100); [lia |]. fold checked.
    split; [reflexivity | split].
    + apply recover_first_request.
    + intros outcome tr' Ho. exact (recover_message E cfg (VInt b) _ _ _ Ho).
  - intros Hover. rewrite <- T.
    exact (try_charge_balance_overflow E cfg tr user_info b tr1 Hu Ht Hb Hover).
Qed.

Lemma balance_gate_witness :
  try_charge scenario_D demo_cfg []
  = (Ret (ERROR, MsgInsufficientBalance),
     ([] ++ [EvLog LFetchUserInfo; user_info_request demo_cfg])
     ++ [EvLog (LBalance (VInt 50))])
  /\ exists more,
       snd (try_charge scenario_A demo_cfg [])
       = (([] ++ [EvLog LFetchUserInfo; user_info_request demo_cfg])
          ++ [EvLog (LBalance (VInt 1234))])
         ++ [EvNow; EvLog (LFetchHistory "202403");
             charge_log_request demo_cfg "202403"] ++ more.
Proof.
  split.
  - refine (proj1 (balance_gate scenario_D demo_cfg []
                     (VDict [("readyaccountmoney", VInt 50)]) 50 _ _ _ _) _ _).
    + reflexivity.
    + reflexivity.
    + reflexivity.
    + vm_compute. reflexivity.
    + lia.
  - refine (proj1 (proj2 (proj1 (proj2 (balance_gate scenario_A demo_cfg []
                     (VDict [("readyaccountmoney", VInt 1234)]) 1234 _ _ _ _))
                     _ _))).
    + reflexivity.
    + reflexivity.
    + reflexivity.
    + vm_compute. reflexivity.
    + lia.
Defined.

(** Without the condition on the balance the first part fails: with the
    balance [- 10 ^ 400], which is below 100, line 222 raises
    [OverflowError]; the attempt ends with [ERROR] and the message of that
    exception, not the one of insufficient balance, and the balance is not
    logged. *)
Lemma balance_gate_overflow_counterexample :
  - 10 ^ 400 < 100
  /\ get_user_info scenario_overdrawn demo_cfg ([] ++ [EvLog LFetchUserInfo])
     = (Ret (VDict [("readyaccountmoney", VInt (- 10 ^ 400))]),
        [EvLog LFetchUserInfo; user_info_request demo_cfg])
  /\ try_charge scenario_overdrawn demo_cfg []
     = (Ret (ERROR, MsgException OverflowError),
        [EvLog LFetchUserInfo; user_info_request demo_cfg])
  /\ fst (try_charge scenario_overdrawn demo_cfg [])
     <> Ret (ERROR, MsgInsufficientBalance).
Proof.
  split; [vm_compute; reflexivity |].
  split; [vm_compute; reflexivity |].
  split; [vm_compute; reflexivity |].
  vm_compute. discriminate.
Qed.

(** ** The history of one or two months *)

Lemma replace_day_first (t : datetime) :
  valid_datetime t = true ->
  replace_day t 1
  = Ret (mkDatetime (mkDate (year (dt_date t)) (month (dt_date t)) 1)
                    (hour t) (minute t) (second t) (microsecond t)).
Proof.
  intros H. unfold replace_day. cbv zeta.
  match goal with |- (if ?c then _ else _) = _ => replace c with true end;
    [reflexivity|].
  symmetry. revert H. unfold valid_datetime, valid_date.
  cbn [dt_date hour minute second microsecond year].
  intros H. do 8 (apply andb_prop in H as [H ?]).
  apply andb_prop in H as [Hc Hy].
  pose proof (civil_date_bounds _ Hc) as (Hy1 & Hm & _).
  rewrite Hy.
  rewrite (civil_date_intro (mkDate (year (dt_date t)) (month (dt_date t)) 1))
    by (cbn [year month day]; try lia;
        pose proof (days_in_month_ge_28 (year (dt_date t)) (month (dt_date t)) Hm);
        lia).
  cbn [andb]. repeat (apply andb_true_intro; split); assumption.
Qed.

(** The day before the first of a month is in the month before. *)
Lemma prev_day_of_first (y m : Z) :
  1 <= m ->
  year (prev_day (mkDate y m 1)) = fst (previous_month y m)
  /\ month (prev_day (mkDate y m 1)) = snd (previous_month y m).
Proof.
  intros Hm. unfold prev_day, previous_month. cbn [year month day].
  change (1 <? 1) with false. cbv iota.
  destruct (Z.ltb_spec 1 m), (Z.eqb_spec m 1); cbn [year month fst snd]; lia.
Qed.

(** [now.replace(day=1) - timedelta(days=1)] is a day of the month before. *)
Lemma last_month_term (t : datetime) :
  valid_datetime t = true -> 2 <= year (dt_date t) ->
  exists last_month,
    rbind (replace_day t 1) (fun first_day => datetime_sub_days first_day 1)
    = Ret last_month
    /\ strftime_Ym last_month
       = month_term (fst (previous_month (year (dt_date t)) (month (dt_date t))))
                    (snd (previous_month (year (dt_date t)) (month (dt_date t)))).
Proof.
  intros Hv Hy. rewrite (replace_day_first t Hv). cbn [rbind].
  destruct (valid_datetime_parts t Hv) as (Hd & _).
  assert (Hc : civil_date (dt_date t) = true).
  { unfold valid_date in Hd. now apply andb_prop in Hd as [Hc _]. }
  pose proof (civil_date_bounds _ Hc) as (Hy1 & Hm & _).
  set (first := mkDate (year (dt_date t)) (month (dt_date t)) 1).
  assert (Hcf : civil_date first = true).
  { apply civil_date_intro; cbn [first year month day]; try lia.
    pose proof (days_in_month_ge_28 (year (dt_date t)) (month (dt_date t)) Hm). lia. }
  assert (Hvf : valid_date first = true).
  { unfold valid_date. rewrite Hcf. cbn [andb first year].
    unfold valid_date in Hd. now apply andb_prop in Hd as [_ Hd]. }
  assert (Ho : 1 < toordinal first) by (apply toordinal_year_ge_2; auto).
  unfold datetime_sub_days. cbn [dt_date hour minute second microsecond].
  rewrite (date_sub_one_day first Hvf Ho). cbn [rbind].
  eexists. split; [reflexivity|].
  unfold strftime_Ym. cbn [dt_date]. unfold first.
  destruct (prev_day_of_first (year (dt_date t)) (month (dt_date t))) as [-> ->];
    [lia | reflexivity].
Qed.

Lemma flatten_two {A} (l : list A) (a b : A) : (l ++ [a]) ++ [b] = l ++ [a; b].
Proof. now rewrite <- app_assoc. Qed.

(** The run of lines 228 to 239 once the first request has returned a
    list. *)
Lemma fetch_charge_history_run (E : env) (cfg : config) (tr : trace)
    (l1 : list value) :
  valid_datetime (clock E tr) = true ->
  2 <= year (dt_date (clock E tr)) ->
  let now := clock E tr in
  let y := year (dt_date now) in
  let m := month (dt_date now) in
  let term_this := month_term y m in
  let term_last := month_term (fst (previous_month y m)) (snd (previous_month y m)) in
  let tr1 := tr ++ [EvNow; EvLog (LFetchHistory term_this)] in
  let tr2 := tr1 ++ [charge_log_request cfg term_this; EvLog (LFetchHistory term_last)] in
  fst (get_charge_log E cfg term_this tr1) = Ret (VList l1) ->
  fetch_charge_history E cfg tr
  = if day (dt_date now) <=? 3
    then match get_charge_log E cfg term_last tr2 with
         | (Ret got, t) =>
             match py_iter got with
             | Ret more => (Ret (l1 ++ more), t)
             | Raise e => (Raise e, t)
             end
         | (Raise e, t) => (Raise e, t)
         end
    else (Ret l1, tr1 ++ [charge_log_request cfg term_this]).
Proof.
  intros Hv Hy now y m term_this term_last tr1 tr2 H1.
  destruct (last_month_term now Hv Hy) as (last_month & Hl & Ht).
  fold y m term_last in Ht.
  assert (G1 : get_charge_log E cfg term_this tr1
               = (Ret (VList l1), tr1 ++ [charge_log_request cfg term_this])).
  { rewrite (surjective_pairing (get_charge_log E cfg term_this tr1)).
    now rewrite H1, get_charge_log_trace. }
  unfold fetch_charge_history, bind at 1, datetime_now. fold now.
  unfold bind at 1, log at 1, emit at 1. rewrite flatten_two.
  change (strftime_Ym now) with term_this. fold tr1.
  unfold bind at 1. rewrite G1.
  unfold bind at 1, lift at 1. cbn [py_iter app].
  destruct (day (dt_date now) <=? 3); [| reflexivity].
  unfold rbind in Hl. unfold bind at 1, lift at 1.
  destruct (replace_day now 1) as [first_day | e]; [| discriminate].
  unfold bind at 1, lift at 1. rewrite Hl.
  unfold bind at 1, log at 1, emit at 1. rewrite Ht, flatten_two.
  fold tr2. unfold bind at 1.
  destruct (get_charge_log E cfg term_last tr2) as [[got | e] t]; [| reflexivity].
  unfold bind, lift, ret. destruct (py_iter got); reflexivity.
Qed.

(** C6. On a valid clock, the attempt asks for the history of the month
    of [now]; from the fourth day of the month on that is the only request
    and the history is what it returned; on the first three days a second
    request follows for the month before, and the history is the first list
    followed by the second.  An empty history ends the attempt with
    [NO_RECORD]. *)
Theorem history_months (E : env) (cfg : config) (tr : trace) (l1 : list value) :
  valid_datetime (clock E tr) = true ->
  2 <= year (dt_date (clock E tr)) ->
  let now := clock E tr in
  let y := year (dt_date now) in
  let m := month (dt_date now) in
  let term_this := month_term y m in
  let term_last := month_term (fst (previous_month y m)) (snd (previous_month y m)) in
  let tr1 := tr ++ [EvNow; EvLog (LFetchHistory term_this)] in
  let tr2 := tr1 ++ [charge_log_request cfg term_this; EvLog (LFetchHistory term_last)] in
  fst (get_charge_log E cfg term_this tr1) = Ret (VList l1) ->
  (3 < day (dt_date now) ->
     fetch_charge_history E cfg tr
     = (Ret l1, tr1 ++ [charge_log_request cfg term_this]))
  /\ (day (dt_date now) <= 3 ->
        forall l2,
          fst (get_charge_log E cfg term_last tr2) = Ret (VList l2) ->
          fetch_charge_history E cfg tr
          = (Ret (l1 ++ l2), tr2 ++ [charge_log_request cfg term_last]))
  /\ (forall balance tr',
        fetch_charge_history E cfg tr = (Ret [], tr') ->
        recover E cfg balance tr = (Ret (NO_RECORD, MsgNoHistory), tr')).
Proof.
  intros Hv Hy now y m term_this term_last tr1 tr2 H1.
  pose proof (fetch_charge_history_run E cfg tr l1 Hv Hy H1) as Start.
  cbv zeta in Start. fold now y m term_this term_last tr1 tr2 in Start.
  split; [| split].
  - intros Hd. rewrite Start.
    destruct (Z.leb_spec (day (dt_date now)) 3); [lia | reflexivity].
  - intros Hd l2 H2. rewrite Start.
    destruct (Z.leb_spec (day (dt_date now)) 3); [| lia].
    rewrite (surjective_pairing (get_charge_log E cfg term_last tr2)).
    now rewrite H2, get_charge_log_trace.
  - intros balance tr' H. unfold recover, bind. now rewrite H.
Qed.

Lemma history_months_witness :
  fetch_charge_history scenario_early demo_cfg []
  = (Ret ([record_value demo_record] ++ [record_value demo_record_normal]),
     (([] ++ [EvNow; EvLog (LFetchHistory "202403")])
      ++ [charge_log_request demo_cfg "202403"; EvLog (LFetchHistory "202402")])
     ++ [charge_log_request demo_cfg "202402"]).
Proof.
  assert (H1 : valid_datetime (clock scenario_early []) = true) by reflexivity.
  assert (H2 : 2 <= year (dt_date (clock scenario_early []))) by (cbn; lia).
  assert (H3 : fst (get_charge_log scenario_early demo_cfg "202403"
                      ([] ++ [EvNow; EvLog (LFetchHistory "202403")]))
               = Ret (VList [record_value demo_record])) by reflexivity.
  refine (proj1 (proj2 (history_months scenario_early demo_cfg []
                          [record_value demo_record] H1 H2 H3)) _ _ _).
  - cbn. lia.
  - reflexivity.
Defined.

(** ** Running a computation step by step *)

Lemma bind_run {A B} (c : M A) (k : A -> M B) (tr tr' : trace) (a : A) :
  c tr = (Ret a, tr') -> bind c k tr = k a tr'.
Proof. intros H. unfold bind. now rewrite H. Qed.

Lemma bind_raise {A B} (c : M A) (k : A -> M B) (tr tr' : trace) (e : exn) :
  c tr = (Raise e, tr') -> bind c k tr = (Raise e, tr').
Proof. intros H. unfold bind. now rewrite H. Qed.

Lemma bind_log {B} (l : log_line) (k : unit -> M B) (tr : trace) :
  bind (log l) k tr = k tt (tr ++ [EvLog l]).
Proof. reflexivity. Qed.

Lemma bind_lift {A B} (a : A) (k : A -> M B) (tr : trace) :
  bind (lift (Ret a)) k tr = k a tr.
Proof. reflexivity. Qed.

Lemma bind_lift_raise {A B} (e : exn) (k : A -> M B) (tr : trace) :
  bind (lift (Raise e)) k tr = (Raise e, tr).
Proof. reflexivity. Qed.

Lemma bind_post {B} (E : env) (cfg : config) (url : string) (data : dict)
    (k : value -> M B) (tr : trace) :
  bind (session_post E cfg url data) k tr
  = match post_json E tr url data with
    | Ret a => k a (tr ++ [EvPost url data (HEADERS cfg)])
    | Raise e => (Raise e, tr ++ [EvPost url data (HEADERS cfg)])
    end.
Proof. reflexivity. Qed.

Lemma app_two {A} (l : list A) (a b : A) : (l ++ [a]) ++ [b] = l ++ [a; b].
Proof. now rewrite <- app_assoc. Qed.

Lemma app_three {A} (l : list A) (a b c : A) :
  (l ++ [a; b]) ++ [c] = l ++ [a; b; c].
Proof. now rewrite <- app_assoc. Qed.

(** ** A history that cannot be fetched *)

(** Lines 80 to 88 on a response that reports failure or has no [obj]. *)
Lemma get_charge_log_failed (E : env) (cfg : config) (term : string)
    (tr : trace) (response : value) :
  post_json E tr (BASE_URL cfg ++ "/wxn/getChargeLog")%string
    [("employeeid", VStr (EMPLOYEE_ID cfg)); ("term", VStr term)]
  = Ret response ->
  fetch_fails response = true ->
  get_charge_log E cfg term tr
  = (Ret (VList []), tr ++ [charge_log_request cfg term]).
Proof.
  intros Hp Hf. unfold get_charge_log. cbv zeta. rewrite bind_post, Hp.
  destruct response as [| | | | | d]; try discriminate.
  unfold fetch_fails, dict_get in Hf. cbn [py_get]. rewrite bind_lift.
  destruct (truthy match dict_lookup "success" d with
                   | Some v => v
                   | None => VNone
                   end); [| reflexivity].
  cbn [negb orb] in Hf. unfold lift.
  destruct (dict_lookup "obj" d); [discriminate | reflexivity].
Qed.

(** C10. When the charge-log endpoint answers every request with a
    response that reports failure or carries no payload, [get_charge_log]
    returns the empty list for every month and raises nothing.  An attempt
    that comes to the history (its balance [b] is an integer of at least
    100 whose hundredth is a float, so that line 222 can format it) then
    ends with [NO_RECORD] and the message of an empty history, not with
    [ERROR], and the controller that ran the attempt logs that there is
    nothing to recover and stops: no sleep, no further attempt, whatever is
    left of its range. *)
Theorem failed_history_is_no_record (E : env) (cfg : config) (tr0 : trace)
    (attempt : Z) (rest : list Z) (user_info : value) (b : Z) (tr1 : trace) :
  let tr := tr0 ++ [EvLog (LAttempt attempt MAX_RETRIES); EvSessionOpen 30] in
  get_user_info E cfg (tr ++ [EvLog LFetchUserInfo]) = (Ret user_info, tr1) ->
  truthy user_info = true ->
  py_get user_info "readyaccountmoney" (VInt 0) = Ret (VInt b) ->
  100 <= b ->
  float_overflow b 100 = false ->
  valid_datetime (clock E (tr1 ++ [EvLog (LBalance (VInt b))])) = true ->
  2 <= year (dt_date (clock E (tr1 ++ [EvLog (LBalance (VInt b))]))) ->
  (forall tr' term, exists response,
      post_json E tr' (BASE_URL cfg ++ "/wxn/getChargeLog")%string
        [("employeeid", VStr (EMPLOYEE_ID cfg)); ("term", VStr term)]
      = Ret response
      /\ fetch_fails response = true) ->
  (forall tr' term,
      get_charge_log E cfg term tr'
      = (Ret (VList []), tr' ++ [charge_log_request cfg term]))
  /\ exists tr',
       try_charge E cfg tr = (Ret (NO_RECORD, MsgNoHistory), tr')
       /\ attempt_loop cfg (try_charge E cfg) (attempt :: rest) tr0
          = (Ret tt, tr' ++ [EvSessionClose; EvLog (LResult MsgNoHistory);
                             EvLog LNothingToRecover]).
Proof.
  intros tr Hu Ht Hb Hge Hfit Hv Hy Hfail.
  assert (G : forall tr' term,
             get_charge_log E cfg term tr'
             = (Ret (VList []), tr' ++ [charge_log_request cfg term])).
  { intros tr' term. destruct (Hfail tr' term) as (response & Hp & Hf).
    now apply get_charge_log_failed with (response := response). }
  split; [exact G |].
  set (tr2 := tr1 ++ [EvLog (LBalance (VInt b))]) in *.
  assert (F : exists tr', fetch_charge_history E cfg tr2 = (Ret [], tr')).
  { rewrite (fetch_charge_history_run E cfg tr2 [] Hv Hy) by now rewrite G.
    cbv zeta. destruct (day (dt_date (clock E tr2)) <=? 3).
    - rewrite G. cbn [py_iter app]. eauto.
    - eauto. }
  destruct F as (tr' & F). exists tr'.
  assert (T : try_charge E cfg tr = (Ret (NO_RECORD, MsgNoHistory), tr')).
  { rewrite (try_charge_balance E cfg tr user_info b tr1 Hu Ht Hb Hfit).
    destruct (Z.ltb_spec b 100); [lia |].
    fold tr2. unfold try_except_Exception, recover.
    now rewrite (bind_run _ _ _ _ _ F). }
  split; [exact T |].
  cbn [attempt_loop]. rewrite bind_log.
  unfold bind at 1, with_session at 1. rewrite app_two. fold tr. rewrite T.
  rewrite !bind_log. unfold log, emit. now rewrite <- !app_assoc.
Qed.

Lemma failed_history_is_no_record_witness :
  (forall tr' term,
      get_charge_log scenario_no_history demo_cfg term tr'
      = (Ret (VList []), tr' ++ [charge_log_request demo_cfg term]))
  /\ exists tr',
       try_charge scenario_no_history demo_cfg
         ([] ++ [EvLog (LAttempt 1 MAX_RETRIES); EvSessionOpen 30])
       = (Ret (NO_RECORD, MsgNoHistory), tr')
       /\ attempt_loop demo_cfg (try_charge scenario_no_history demo_cfg)
            (1 :: [2; 3]) []
          = (Ret tt, tr' ++ [EvSessionClose; EvLog (LResult MsgNoHistory);
                             EvLog LNothingToRecover]).
Proof.
  refine (failed_history_is_no_record scenario_no_history demo_cfg [] 1 [2; 3]
            (VDict [("readyaccountmoney", VInt 1234)]) 1234 _ _ _ _ _ _ _ _ _).
  - reflexivity.
  - reflexivity.
  - reflexivity.
  - lia.
  - vm_compute. reflexivity.
  - reflexivity.
  - cbn. lia.
  - intros tr' term. exists failed_response. split; [| reflexivity].
    cbn. destruct (String.eqb term "202403"); reflexivity.
Defined.

(** ** The retry controller *)

Lemma control_events_app (a b : trace) :
  control_events (a ++ b) = control_events a ++ control_events b.
Proof.
  induction a as [| ev a IH]; [reflexivity |].
  cbn [app control_events]. destruct (control_of ev); cbn [app]; now rewrite IH.
Qed.

Lemma control_events_quiet (rest : trace) :
  Forall quiet rest -> control_events rest = [].
Proof.
  induction 1 as [| ev rest Hq _ IH]; [reflexivity |].
  cbn [control_events]. now rewrite Hq.
Qed.

(** A computation that adds none of the controller's events leaves what
    the controller has done as it was. *)
Lemma appends_quiet_control {A} (c : M A) (tr : trace) :
  appends quiet c -> control_events (snd (c tr)) = control_events tr.
Proof.
  intros H. destruct (H tr) as (rest & -> & Hq).
  rewrite control_events_app, (control_events_quiet rest Hq). apply app_nil_r.
Qed.

(** The lines of a refused configuration are none of the controller's
    events. *)
Lemma log_config_errors_quiet (errs : list string) :
  appends quiet (log_config_errors errs).
Proof.
  induction errs as [| err rest IH]; cbn [log_config_errors].
  - apply appends_ret.
  - apply appends_bind; [apply appends_log; reflexivity | intros _; exact IH].
Qed.

(** C2. Whatever outcomes the orchestrator answers its invocations with,
    [main] invokes it at most [MAX_RETRIES] = 3 times.  On a configuration
    that passes validation the controller does exactly this: after an
    outcome [SUCCESS] or [NO_RECORD] it reports and stops, with no sleep and
    no further attempt; after [PORT_BUSY] or [ERROR] at the first or second
    attempt it sleeps [RETRY_INTERVAL] = 600 seconds and attempts again;
    after a third such outcome it does not sleep, reports that the retries
    are used up and that all of them failed, and stops. *)
Theorem retry_controller (cfg : config) (outcomes : Z -> ChargeResult * message) :
  let tr := snd (main_with cfg (scripted outcomes) []) in
  invocations tr <= MAX_RETRIES
  /\ (validate_config cfg = [] ->
      (retriable (outcomes 1) = false ->
         control_events tr = [Invoked; Reported (verdict (outcomes 1))])
      /\ (retriable (outcomes 1) = true -> retriable (outcomes 2) = false ->
            control_events tr
            = [Invoked; Slept RETRY_INTERVAL;
               Invoked; Reported (verdict (outcomes 2))])
      /\ (retriable (outcomes 1) = true -> retriable (outcomes 2) = true ->
          retriable (outcomes 3) = false ->
            control_events tr
            = [Invoked; Slept RETRY_INTERVAL;
               Invoked; Slept RETRY_INTERVAL;
               Invoked; Reported (verdict (outcomes 3))])
      /\ (retriable (outcomes 1) = true -> retriable (outcomes 2) = true ->
          retriable (outcomes 3) = true ->
            control_events tr
            = [Invoked; Slept RETRY_INTERVAL;
               Invoked; Slept RETRY_INTERVAL;
               Invoked; Reported LMaxRetriesReached;
               Reported LAllRetriesFailed])).
Proof.
  intros tr. subst tr. unfold main_with.
  destruct (validate_config cfg) as [| err errs] eqn:V.
  - change (py_range 1 (MAX_RETRIES + 1)) with [1; 2; 3].
    unfold retriable, verdict.
    cbv [attempt_loop bind log emit with_session scripted app snd fst
         invocations control_events control_of filter Datatypes.length Z.of_nat
         Pos.of_succ_nat Pos.succ MAX_RETRIES RETRY_INTERVAL Z.ltb Z.compare
         Pos.compare Pos.compare_cont Z.leb Z.div Z.div_eucl Z.pos_div_eucl
         Z.mul Pos.mul Pos.add Z.add Z.sub Z.opp Z.pos_sub Z.succ_double
         Z.pred_double Z.double Pos.pred_double Z.ltb Z.leb].
    destruct (outcomes 1) as [[] m1]; cbv beta iota;
      destruct (outcomes 2) as [[] m2]; cbv beta iota;
        destruct (outcomes 3) as [[] m3]; cbv beta iota;
          (split; [lia |]); intros _;
            repeat split; intros; (reflexivity || discriminate).
  - split; [| discriminate].
    unfold invocations. rewrite appends_quiet_control.
    + cbn. unfold MAX_RETRIES. lia.
    + repeat lazymatch goal with
             | |- appends _ (log_config_errors _) => apply log_config_errors_quiet
             | |- _ => appends_step
             end.
Qed.

(** ** The start of the charge *)

Lemma py_get_dict (k : string) (default : value) (d : dict) :
  py_get (VDict d) k default = Ret (dict_get k default d).
Proof. reflexivity. Qed.

Lemma bind_assoc {A B C} (c : M A) (f : A -> M B) (k : B -> M C) (tr : trace) :
  bind (bind c f) k tr = bind c (fun a => bind (f a) k) tr.
Proof. unfold bind. now destruct (c tr) as [[a | e] tr']. Qed.

(** [params["msgflag"] = msgflag] adds the key after the seventeen of
    [params]. *)
Lemma begin_charge_params_confirmed (cfg : config) (devaddress : string)
    (port money devtypeid safeCharge efee eCharge serviceCharge msgflag : value) :
  dict_set "msgflag" msgflag
    (begin_charge_params cfg devaddress port money
       devtypeid safeCharge efee eCharge serviceCharge)
  = begin_charge_params cfg devaddress port money
      devtypeid safeCharge efee eCharge serviceCharge
    ++ [("msgflag", msgflag)].
Proof. reflexivity. Qed.

Ltac run_steps :=
  repeat (rewrite ?bind_assoc, ?py_get_dict, ?bind_lift, ?bind_log, ?bind_post;
          cbn beta iota zeta delta [negb]).

(** Lines 243 to 268: an attempt whose history holds a record of an outage,
    on a device that answers and whose port is free, comes to line 270. *)
Lemma recover_reaches_start (E : env) (cfg : config) (balance : value)
    (logs : list value) (record device : dict) (tr tr2 tr3 tr4 : trace) :
  fetch_charge_history E cfg tr = (Ret logs, tr2) ->
  logs <> [] ->
  find_power_off_record E cfg logs
    (tr2 ++ [EvLog (LRecordCount (Z.of_nat (List.length logs)));
             EvLog LCheckRecords])
  = (Ret (VDict record), tr3) ->
  truthy (VDict record) = true ->
  get_device_info E cfg (str_of E (dict_get "devaddress" VNone record))
    (tr3 ++ [EvLog (LFetchDevice (str_of E (dict_get "devaddress" VNone record)))])
  = (Ret (VDict device), tr4) ->
  truthy (VDict device) = true ->
  is_port_free E (dict_get "portstatur" (VStr "") device)
    (dict_get "devport" VNone record) = Ret true ->
  recover E cfg balance tr
  = start_charge E cfg (str_of E (dict_get "devaddress" VNone record))
      (dict_get "devport" VNone record) balance (VDict device)
      (tr4 ++ [EvLog (LPortStatus (dict_get "portstatur" (VStr "") device));
               EvLog (LPortFree (dict_get "devport" VNone record))]).
Proof.
  intros Hf Hne Hr Htr Hd Htd Hp.
  unfold recover. rewrite (bind_run _ _ _ _ _ Hf).
  destruct logs as [| r0 rest]; [congruence |].
  rewrite !bind_log, app_two, (bind_run _ _ _ _ _ Hr), Htr.
  run_steps. rewrite (bind_run _ _ _ _ _ Hd), Htd.
  run_steps. rewrite Hp. run_steps. now rewrite app_two.
Qed.

(** C7. An attempt that comes to the start of the charge (the balance [b]
    of the user record is an integer of at least 100 whose hundredth is a
    float, so that lines 222 and 271 can format it, the history holds the
    record of an outage, the device answers and the port is free) sends the
    begin-charge
    request with [money] and [beforemoney] equal to [b] and without
    [msgflag].  When that request raises, or its response reports no
    success, or carries no token, the attempt ends with [ERROR] and the
    request stays the only one.  Otherwise the request is sent once more
    with the same parameters followed by [msgflag], the token; the attempt
    ends with [SUCCESS] when the response to this second request reports
    success, with [ERROR] and the [msg] of the response when it does not,
    and with [ERROR] and the exception when the request raises. *)
Theorem begin_charge_two_phase (E : env) (cfg : config) (tr : trace)
    (user_info : value) (b : Z) (logs : list value) (record device : dict)
    (tr1 tr2 tr3 tr4 : trace) :
  get_user_info E cfg (tr ++ [EvLog LFetchUserInfo]) = (Ret user_info, tr1) ->
  truthy user_info = true ->
  py_get user_info "readyaccountmoney" (VInt 0) = Ret (VInt b) ->
  100 <= b ->
  float_overflow b 100 = false ->
  fetch_charge_history E cfg (tr1 ++ [EvLog (LBalance (VInt b))]) = (Ret logs, tr2) ->
  logs <> [] ->
  find_power_off_record E cfg logs
    (tr2 ++ [EvLog (LRecordCount (Z.of_nat (List.length logs)));
             EvLog LCheckRecords])
  = (Ret (VDict record), tr3) ->
  truthy (VDict record) = true ->
  let devaddress := str_of E (dict_get "devaddress" VNone record) in
  let port := dict_get "devport" VNone record in
  let portstatur := dict_get "portstatur" (VStr "") device in
  get_device_info E cfg devaddress (tr3 ++ [EvLog (LFetchDevice devaddress)])
  = (Ret (VDict device), tr4) ->
  truthy (VDict device) = true ->
  is_port_free E portstatur port = Ret true ->
  let url := (BASE_URL cfg ++ "/wxn/beginCharge")%string in
  let params :=
    begin_charge_params cfg devaddress port (VInt b)
      (dict_get "devtypeid" (VInt 40) device)
      (dict_get "safeCharge" (VInt 9) device)
      (dict_get "efee" (VInt 110) device)
      (dict_get "eCharge" (VInt 55) device)
      (dict_get "serviceCharge" (VInt 55) device) in
  let tr_start :=
    tr4 ++ [EvLog (LPortStatus portstatur); EvLog (LPortFree port);
            EvLog (LStartCharge devaddress port (VInt b))] in
  let tr_first := tr_start ++ [begin_charge_request cfg params] in
  (dict_lookup "money" params = Some (VInt b)
   /\ dict_lookup "beforemoney" params = Some (VInt b)
   /\ dict_lookup "msgflag" params = None)
  /\ (forall e,
        post_json E tr_start url params = Raise e ->
        try_charge E cfg tr = (Ret (ERROR, MsgException e), tr_first))
  /\ (forall result1 e,
        post_json E tr_start url params = Ret result1 ->
        py_get result1 "success" VNone = Raise e ->
        try_charge E cfg tr = (Ret (ERROR, MsgException e), tr_first))
  /\ (forall d1,
        post_json E tr_start url params = Ret (VDict d1) ->
        truthy (dict_get "success" VNone d1) = false ->
        try_charge E cfg tr
        = (Ret (ERROR,
                MsgChargeFailed
                  (VStr ("第一步失败: " ++ str_of E (dict_get "msg" VNone d1))%string)),
           tr_first))
  /\ (forall d1,
        post_json E tr_start url params = Ret (VDict d1) ->
        truthy (dict_get "success" VNone d1) = true ->
        truthy (dict_get "obj" VNone d1) = false ->
        try_charge E cfg tr
        = (Ret (ERROR, MsgChargeFailed (VStr "未获取到 msgflag")), tr_first))
  /\ (forall d1,
        post_json E tr_start url params = Ret (VDict d1) ->
        truthy (dict_get "success" VNone d1) = true ->
        truthy (dict_get "obj" VNone d1) = true ->
        let confirmed := params ++ [("msgflag", dict_get "obj" VNone d1)] in
        let tr_final := tr_first ++ [begin_charge_request cfg confirmed] in
        (forall e,
           post_json E tr_first url confirmed = Raise e ->
           try_charge E cfg tr = (Ret (ERROR, MsgException e), tr_final))
        /\ (forall result e,
              post_json E tr_first url confirmed = Ret result ->
              py_get result "success" VNone = Raise e ->
              try_charge E cfg tr = (Ret (ERROR, MsgException e), tr_final))
        /\ (forall d2,
              post_json E tr_first url confirmed = Ret (VDict d2) ->
              try_charge E cfg tr
              = (Ret (if truthy (dict_get "success" VNone d2)
                      then (SUCCESS, MsgCharging devaddress port (VInt b))
                      else (ERROR, MsgChargeFailed (dict_get "msg" VNone d2))),
                 tr_final))).
Proof.
  intros Hu Ht Hb Hge Hfit Hf Hne Hr Htr devaddress port portstatur Hd Htd Hp
         url params tr_start tr_first.
  assert (Start : try_charge E cfg tr
                  = try_except_Exception
                      (start_charge E cfg devaddress port (VInt b) (VDict device))
                      (fun e => ret (ERROR, MsgException e))
                      (tr4 ++ [EvLog (LPortStatus portstatur);
                               EvLog (LPortFree port)])).
  { rewrite (try_charge_balance E cfg tr user_info b tr1 Hu Ht Hb Hfit).
    destruct (Z.ltb_spec b 100); [lia |].
    unfold try_except_Exception.
    now rewrite (recover_reaches_start E cfg (VInt b) logs record device
                   _ tr2 tr3 tr4 Hf Hne Hr Htr Hd Htd Hp). }
  assert (Run : try_charge E cfg tr
                = try_except_Exception
                    (result <- begin_charge E cfg devaddress port (VInt b) (VDict device) ;;
                     success <- lift (py_get result "success" VNone) ;;
                     if truthy success then
                       lift (py_truediv_check (VInt b)) ;;
                       ret (SUCCESS, MsgCharging devaddress port (VInt b))
                     else
                       msg <- lift (py_get result "msg" VNone) ;;
                       ret (ERROR, MsgChargeFailed msg))%M
                    (fun e => ret (ERROR, MsgException e)) tr_start).
  { rewrite Start. unfold try_except_Exception, start_charge.
    rewrite (py_truediv_check_int b Hfit).
    now rewrite bind_lift, bind_log, app_three. }
  clear Start. subst url params tr_first.
  rewrite (py_truediv_check_int b Hfit) in Run.
  unfold try_except_Exception, begin_charge in Run. cbv zeta in Run.
  rewrite !bind_assoc, !py_get_dict in Run.
  do 5 (rewrite bind_lift in Run; cbv beta in Run; rewrite ?bind_assoc in Run).
  rewrite bind_post in Run. unfold begin_charge_request.
  split; [repeat split |].
  split; [| split; [| split; [| split]]].
  - intros e H. rewrite Run, H. reflexivity.
  - intros result1 e H Hs. rewrite Run, H.
    rewrite !bind_assoc, Hs. reflexivity.
  - intros d1 H Hs. rewrite Run, H. run_steps. rewrite Hs. run_steps.
    reflexivity.
  - intros d1 H Hs Ho. rewrite Run, H. run_steps. rewrite Hs. run_steps.
    rewrite Ho. run_steps. reflexivity.
  - intros d1 H Hs Ho.
    rewrite Run, H. clear Run. run_steps. rewrite Hs. run_steps.
    rewrite Ho. run_steps. rewrite begin_charge_params_confirmed.
    split; [| split].
    + intros e H2. rewrite H2. reflexivity.
    + intros result e H2 Hs2. rewrite H2, Hs2. reflexivity.
    + intros d2 H2. rewrite H2. run_steps.
      destruct (truthy (dict_get "success" VNone d2)); run_steps; reflexivity.
Qed.

Lemma begin_charge_two_phase_witness :
  fst (try_charge scenario_A demo_cfg [])
  = Ret (SUCCESS, MsgCharging "D100" (VStr "2") (VInt 1234)).
Proof.
  pose (record := [("devaddress", VStr "D100"); ("devport", VStr "2");
                   ("endtype", VInt 39); ("enddt", VInt 1710431160000)]).
  pose (logs := [VDict record]).
  pose (tr1 := snd (get_user_info scenario_A demo_cfg ([] ++ [EvLog LFetchUserInfo]))).
  pose (tr2 := snd (fetch_charge_history scenario_A demo_cfg
                      (tr1 ++ [EvLog (LBalance (VInt 1234))]))).
  pose (tr3 := snd (find_power_off_record scenario_A demo_cfg logs
                      (tr2 ++ [EvLog (LRecordCount 1); EvLog LCheckRecords]))).
  pose (tr4 := snd (get_device_info scenario_A demo_cfg "D100"
                      (tr3 ++ [EvLog (LFetchDevice "D100")]))).
  destruct (begin_charge_two_phase scenario_A demo_cfg []
              (VDict [("readyaccountmoney", VInt 1234)]) 1234
              logs record [("portstatur", VStr "100")] tr1 tr2 tr3 tr4)
    as (_ & _ & _ & _ & _ & Last).
  - vm_compute. reflexivity.
  - reflexivity.
  - reflexivity.
  - lia.
  - vm_compute. reflexivity.
  - vm_compute. reflexivity.
  - discriminate.
  - vm_compute. reflexivity.
  - reflexivity.
  - vm_compute. reflexivity.
  - reflexivity.
  - vm_compute. reflexivity.
  - destruct (Last [("success", VBool true); ("obj", VStr "tok")])
      as (_ & _ & Final); [vm_compute; reflexivity | reflexivity | reflexivity |].
    rewrite (Final [("success", VBool true)]); [reflexivity |].
    vm_compute. reflexivity.
Defined.

(** ** The requests of an attempt, counted *)

Lemma posts_app (a b : trace) : posts (a ++ b) = posts a + posts b.
Proof.
  induction a as [| ev a IH]; [reflexivity |].
  cbn [app posts]. destruct ev; rewrite IH; lia.
Qed.

Lemma posts_nonneg (tr : trace) : 0 <= posts tr.
Proof. induction tr as [| ev tr IH]; [reflexivity |]. destruct ev; cbn [posts]; lia. Qed.

Lemma sends_ret {A} (n : Z) (a : A) : 0 <= n -> sends n (ret a).
Proof. intros H tr. cbn [ret snd]. lia. Qed.

Lemma sends_lift {A} (n : Z) (r : result A) : 0 <= n -> sends n (lift r).
Proof. intros H tr. cbn [lift snd]. lia. Qed.

Lemma sends_log (n : Z) (l : log_line) : 0 <= n -> sends n (log l).
Proof.
  intros H tr. unfold log, emit. cbn [snd]. rewrite posts_app. cbn [posts]. lia.
Qed.

Lemma sends_now (E : env) (n : Z) : 0 <= n -> sends n (datetime_now E).
Proof.
  intros H tr. unfold datetime_now. cbn [snd]. rewrite posts_app. cbn [posts]. lia.
Qed.

Lemma sends_post (E : env) (cfg : config) (n : Z) (url : string) (data : dict) :
  1 <= n -> sends n (session_post E cfg url data).
Proof.
  intros H tr. unfold session_post. cbn [snd]. rewrite posts_app. cbn [posts]. lia.
Qed.

Lemma sends_le {A} (n m : Z) (c : M A) : sends n c -> n <= m -> sends m c.
Proof. intros H L tr. specialize (H tr). lia. Qed.

(** [c] may use [n1] of the [n] requests, what follows has the rest. *)
Lemma sends_bind {A B} (n n1 : Z) (c : M A) (k : A -> M B) :
  sends n1 c -> (forall a, sends (n - n1) (k a)) -> 0 <= n - n1 ->
  sends n (bind c k).
Proof.
  intros Hc Hk Hn tr. unfold bind. specialize (Hc tr).
  destruct (c tr) as [[a | e] tr1]; cbn [snd] in *.
  - specialize (Hk a tr1). lia.
  - lia.
Qed.

Lemma sends_try_except {A} (n : Z) (c : M A) (h : exn -> M A) :
  sends n c -> (forall e, sends 0 (h e)) -> sends n (try_except_Exception c h).
Proof.
  intros Hc Hh tr. unfold try_except_Exception. specialize (Hc tr).
  destruct (c tr) as [[a | e] tr1]; cbn [snd] in *; [exact Hc |].
  specialize (Hh e tr1). lia.
Qed.

Ltac budget := vm_compute; discriminate.

(** One step of a proof of [sends n c]: [cost] is what the first
    computation of a [bind] may send. *)
Ltac sends_step :=
  lazymatch goal with
  | |- sends _ (ret _) => apply sends_ret; budget
  | |- sends _ (lift _) => apply sends_lift; budget
  | |- sends _ (log _) => apply sends_log; budget
  | |- sends _ (datetime_now _) => apply sends_now; budget
  | |- sends _ (session_post _ _ _ _) => apply sends_post; budget
  | |- sends ?n (bind (session_post _ _ _ _) _) =>
      apply (sends_bind n 1); [apply sends_post; budget | intros ? | budget]
  | |- sends ?n (bind (get_user_info _ _) _) =>
      apply (sends_bind n 1); [| intros ? | budget]
  | |- sends ?n (bind (get_charge_log _ _ _) _) =>
      apply (sends_bind n 1); [| intros ? | budget]
  | |- sends ?n (bind (get_device_info _ _ _) _) =>
      apply (sends_bind n 1); [| intros ? | budget]
  | |- sends ?n (bind (begin_charge _ _ _ _ _ _) _) =>
      apply (sends_bind n 2); [| intros ? | budget]
  | |- sends ?n (bind (fetch_charge_history _ _) _) =>
      apply (sends_bind n 2); [| intros ? | budget]
  | |- sends ?n (bind _ _) =>
      apply (sends_bind n 0); [| intros ? | budget]
  | |- sends _ (if ?b then _ else _) => destruct b
  | |- sends _ (match ?x with _ => _ end) => destruct x
  end.

Lemma get_user_info_sends (E : env) (cfg : config) :
  sends 1 (get_user_info E cfg).
Proof. unfold get_user_info. repeat sends_step. Qed.

Lemma get_charge_log_sends (E : env) (cfg : config) (term : string) :
  sends 1 (get_charge_log E cfg term).
Proof. unfold get_charge_log. repeat sends_step. Qed.

Lemma get_device_info_sends (E : env) (cfg : config) (devaddress : string) :
  sends 1 (get_device_info E cfg devaddress).
Proof. unfold get_device_info. repeat sends_step. Qed.

(** The two phases: [begin_charge] sends two requests at most. *)
Lemma begin_charge_sends (E : env) (cfg : config) (devaddress : string)
    (port money device_info : value) :
  sends 2 (begin_charge E cfg devaddress port money device_info).
Proof. unfold begin_charge. repeat sends_step. Qed.

Lemma find_in_window_sends (cfg : config) (s e : datetime) (logs : list value) :
  sends 0 (find_in_window cfg s e logs).
Proof.
  induction logs as [| record rest IH]; cbn [find_in_window].
  - apply sends_ret. budget.
  - repeat (exact IH || sends_step).
Qed.

Lemma find_power_off_record_sends (E : env) (cfg : config) (logs : list value) :
  sends 0 (find_power_off_record E cfg logs).
Proof.
  unfold find_power_off_record. apply (sends_bind 0 0); [| | budget].
  - unfold power_off_window. repeat sends_step.
  - intros w. apply find_in_window_sends.
Qed.

Ltac sends_call :=
  lazymatch goal with
  | |- sends _ (get_user_info _ _) => apply get_user_info_sends
  | |- sends _ (get_charge_log _ _ _) => apply get_charge_log_sends
  | |- sends _ (get_device_info _ _ _) => apply get_device_info_sends
  | |- sends _ (begin_charge _ _ _ _ _ _) => apply begin_charge_sends
  | |- sends _ (find_power_off_record _ _ _) => apply find_power_off_record_sends
  | |- _ => sends_step
  end.

Lemma fetch_charge_history_sends (E : env) (cfg : config) :
  sends 2 (fetch_charge_history E cfg).
Proof. unfold fetch_charge_history. repeat sends_call. Qed.

Lemma start_charge_sends (E : env) (cfg : config) (devaddress : string)
    (port balance device_info : value) :
  sends 2 (start_charge E cfg devaddress port balance device_info).
Proof. unfold start_charge. repeat sends_call. Qed.

Lemma recover_sends (E : env) (cfg : config) (balance : value) :
  sends 5 (recover E cfg balance).
Proof.
  unfold recover. apply (sends_bind 5 2); [apply fetch_charge_history_sends | | budget].
  intros logs. destruct logs as [| record rest]; [apply sends_ret; budget |].
  repeat lazymatch goal with
         | |- sends _ (start_charge _ _ _ _ _ _) => apply start_charge_sends
         | |- sends _ (fetch_charge_history _ _) => apply fetch_charge_history_sends
         | |- _ => sends_call
         end.
Qed.

(** An attempt sends six requests at most: one for the user, two for the
    history, one for the device, two to begin the charge. *)
Lemma try_charge_sends (E : env) (cfg : config) : sends 6 (try_charge E cfg).
Proof.
  unfold try_charge. apply sends_try_except.
  - unfold try_charge_body.
    repeat lazymatch goal with
           | |- sends _ (recover _ _ _) => apply recover_sends
           | |- _ => sends_call
           end.
  - intros e. apply sends_ret. budget.
Qed.

(** ** What an attempt may do *)

Lemma appends_weaken {A} (P Q : event -> Prop) (c : M A) :
  (forall ev, P ev -> Q ev) -> appends P c -> appends Q c.
Proof.
  intros PQ H tr. destruct (H tr) as (rest & Hr & HP).
  exists rest. split; [exact Hr |]. revert HP. apply Forall_impl. exact PQ.
Qed.

Ltac endpoint := split; [cbn [endpoints In]; tauto | reflexivity].

(** One step of a proof of [appends (attempt_event cfg) c]. *)
Ltac attempt_step :=
  lazymatch goal with
  | |- appends _ (ret _) => apply appends_ret
  | |- appends _ (lift _) => apply appends_lift
  | |- appends _ (log _) => apply appends_log; exact I
  | |- appends _ (datetime_now _) => apply appends_now; exact I
  | |- appends _ (session_post _ _ _ _) => apply appends_post; endpoint
  | |- appends _ (bind _ _) => apply appends_bind; [| intros ?]
  | |- appends _ (if ?b then _ else _) => destruct b
  | |- appends _ (match ?x with _ => _ end) => destruct x
  end.

Lemma get_user_info_events (E : env) (cfg : config) :
  appends (attempt_event cfg) (get_user_info E cfg).
Proof. unfold get_user_info. repeat attempt_step. Qed.

Lemma get_charge_log_events (E : env) (cfg : config) (term : string) :
  appends (attempt_event cfg) (get_charge_log E cfg term).
Proof. unfold get_charge_log. repeat attempt_step. Qed.

Lemma get_device_info_events (E : env) (cfg : config) (devaddress : string) :
  appends (attempt_event cfg) (get_device_info E cfg devaddress).
Proof. unfold get_device_info. repeat attempt_step. Qed.

Lemma begin_charge_events (E : env) (cfg : config) (devaddress : string)
    (port money device_info : value) :
  appends (attempt_event cfg) (begin_charge E cfg devaddress port money device_info).
Proof. unfold begin_charge. repeat attempt_step. Qed.

Lemma find_in_window_events (cfg : config) (s e : datetime) (logs : list value) :
  appends (attempt_event cfg) (find_in_window cfg s e logs).
Proof.
  induction logs as [| record rest IH]; cbn [find_in_window].
  - apply appends_ret.
  - repeat (exact IH || attempt_step).
Qed.

Lemma find_power_off_record_events (E : env) (cfg : config) (logs : list value) :
  appends (attempt_event cfg) (find_power_off_record E cfg logs).
Proof.
  unfold find_power_off_record. apply appends_bind.
  - unfold power_off_window. repeat attempt_step.
  - intros w. apply find_in_window_events.
Qed.

Ltac attempt_call :=
  lazymatch goal with
  | |- appends _ (get_user_info _ _) => apply get_user_info_events
  | |- appends _ (get_charge_log _ _ _) => apply get_charge_log_events
  | |- appends _ (get_device_info _ _ _) => apply get_device_info_events
  | |- appends _ (begin_charge _ _ _ _ _ _) => apply begin_charge_events
  | |- appends _ (find_power_off_record _ _ _) => apply find_power_off_record_events
  | |- _ => attempt_step
  end.

Lemma fetch_charge_history_events (E : env) (cfg : config) :
  appends (attempt_event cfg) (fetch_charge_history E cfg).
Proof. unfold fetch_charge_history. repeat attempt_call. Qed.

Lemma start_charge_events (E : env) (cfg : config) (devaddress : string)
    (port balance device_info : value) :
  appends (attempt_event cfg)
    (start_charge E cfg devaddress port balance device_info).
Proof. unfold start_charge. repeat attempt_call. Qed.

Lemma recover_events (E : env) (cfg : config) (balance : value) :
  appends (attempt_event cfg) (recover E cfg balance).
Proof.
  unfold recover. apply appends_bind; [apply fetch_charge_history_events |].
  intros logs. destruct logs as [| record rest]; [apply appends_ret |].
  repeat lazymatch goal with
         | |- appends _ (start_charge _ _ _ _ _ _) => apply start_charge_events
         | |- _ => attempt_call
         end.
Qed.

(** Whatever the platform answers, an attempt adds log lines, clock reads
    and requests to the four endpoints to the trace, and nothing else. *)
Lemma try_charge_events (E : env) (cfg : config) :
  appends (attempt_event cfg) (try_charge E cfg).
Proof.
  unfold try_charge. apply appends_try_except.
  - unfold try_charge_body.
    repeat lazymatch goal with
           | |- appends _ (recover _ _ _) => apply recover_events
           | |- _ => attempt_call
           end.
  - intros e. apply appends_ret.
Qed.

(** ** A run of [main] *)

Lemma invocations_app (a b : trace) :
  invocations (a ++ b) = invocations a + invocations b.
Proof.
  unfold invocations.
  now rewrite control_events_app, filter_app, length_app, Nat2Z.inj_add.
Qed.

Lemma slept_app (a b : trace) : slept (a ++ b) = slept a + slept b.
Proof.
  induction a as [| ev a IH]; [reflexivity |].
  cbn [app slept]. destruct ev; rewrite IH; lia.
Qed.

Lemma attempt_events_counts (cfg : config) (body : trace) :
  Forall (attempt_event cfg) body -> invocations body = 0 /\ slept body = 0.
Proof.
  induction 1 as [| ev body Hev _ [IHi IHs]]; [split; reflexivity |].
  destruct ev as [l | | url data headers | t | | s]; try contradiction.
  - split; [| exact IHs]. revert IHi. unfold invocations. cbn [control_events].
    destruct (control_of (EvLog l)) as [c |] eqn:C; [| trivial].
    destruct l; try discriminate C; injection C as <-; trivial.
  - split; assumption.
  - split; assumption.
Qed.

Lemma disciplined_attempt_events (cfg : config) (body rest : trace) :
  Forall (attempt_event cfg) body ->
  disciplined true (body ++ rest) = disciplined true rest.
Proof.
  induction 1 as [| ev body Hev _ IH]; [reflexivity |].
  destruct ev; try contradiction; cbn [app disciplined andb]; exact IH.
Qed.

(** A disciplined trace leaves no session open: what follows it starts
    outside of a session. *)
Lemma disciplined_app (a b : trace) (open : bool) :
  disciplined open a = true ->
  disciplined open (a ++ b) = disciplined false b.
Proof.
  revert open. induction a as [| ev a IH]; intros open H.
  - destruct open; [discriminate | reflexivity].
  - destruct ev; cbn [app disciplined] in *;
      try (apply andb_prop in H as [-> H]; cbn [andb]); now apply IH.
Qed.

Lemma main_event_of_attempt (cfg : config) (ev : event) :
  attempt_event cfg ev -> main_event cfg ev.
Proof. destruct ev; cbn; trivial; contradiction. Qed.

Lemma bind_emit {B} (ev : event) (k : unit -> M B) (tr : trace) :
  bind (emit ev) k tr = k tt (tr ++ [ev]).
Proof. reflexivity. Qed.

Lemma within_app (cfg : config) (n1 n2 s1 s2 : Z) (a b : trace) :
  within cfg n1 s1 a -> within cfg n2 s2 b ->
  within cfg (n1 + n2) (s1 + s2) (a ++ b).
Proof.
  unfold within. change RETRY_INTERVAL with 600.
  intros (A1 & A2 & A3 & A4 & A5) (B1 & B2 & B3 & B4 & B5).
  rewrite invocations_app, slept_app, posts_app, (disciplined_app a b false A3).
  repeat split; [lia | lia | exact B3 | apply Forall_app; now split | lia].
Qed.

Lemma within_le (cfg : config) (n n' s s' : Z) (a : trace) :
  within cfg n s a -> n <= n' -> s <= s' -> within cfg n' s' a.
Proof.
  unfold within. change RETRY_INTERVAL with 600.
  intros (A1 & A2 & A3 & A4 & A5) Hn Hs. repeat split; try assumption; lia.
Qed.

Lemma within_logs (cfg : config) (ls : list log_line) :
  within cfg 0 0 (map EvLog ls).
Proof.
  assert (D : disciplined false (map EvLog ls) = true)
    by (induction ls; [reflexivity | assumption]).
  assert (H : Forall (attempt_event cfg) (map EvLog ls))
    by (clear D; induction ls; constructor; [exact I | assumption]).
  assert (P : posts (map EvLog ls) = 0)
    by (clear D H; induction ls; [reflexivity | assumption]).
  destruct (attempt_events_counts cfg _ H) as [Hi Hs].
  unfold within. rewrite Hi, Hs, P. repeat split; try lia; [exact D |].
  revert H. apply Forall_impl, main_event_of_attempt.
Qed.

(** One attempt inside its session. *)
Lemma within_session (cfg : config) (attempt : Z) (body : trace) :
  Forall (attempt_event cfg) body ->
  posts body <= 6 ->
  within cfg 1 0
    ([EvLog (LAttempt attempt MAX_RETRIES); EvSessionOpen 30]
     ++ body ++ [EvSessionClose]).
Proof.
  intros HP H6. destruct (attempt_events_counts cfg body HP) as [Bi Bs].
  unfold within. rewrite !invocations_app, !slept_app, !posts_app, Bi, Bs.
  cbn [app disciplined negb andb].
  rewrite (disciplined_attempt_events cfg body _ HP).
  split; [| split; [| split; [| split]]]; [| | | | cbn [posts]; lia].
  - change (invocations [EvLog (LAttempt attempt MAX_RETRIES); EvSessionOpen 30])
      with 1.
    change (invocations [EvSessionClose]) with 0. lia.
  - change (slept [EvLog (LAttempt attempt MAX_RETRIES); EvSessionOpen 30])
      with 0.
    change (slept [EvSessionClose]) with 0. change RETRY_INTERVAL with 600. lia.
  - reflexivity.
  - constructor; [exact I |]. constructor; [reflexivity |].
    apply Forall_app. split.
    + revert HP. apply Forall_impl, main_event_of_attempt.
    + now repeat constructor.
Qed.

Lemma within_sleep (cfg : config) : within cfg 0 1 [EvSleep RETRY_INTERVAL].
Proof.
  split; [| split; [| split; [| split]]].
  - change (invocations [EvSleep RETRY_INTERVAL]) with 0. lia.
  - cbn [slept]. change RETRY_INTERVAL with 600. lia.
  - reflexivity.
  - now repeat constructor.
  - cbn [posts]. lia.
Qed.

(** The branch of the loop for [PORT_BUSY] and [ERROR]. *)
Ltac retry_with IH Session session tail :=
  let more := fresh "more" in
  let Hmore := fresh "Hmore" in
  let Hm := fresh "Hm" in
  match goal with
  | |- context [attempt_loop _ _ _ ?t] => destruct (IH t) as (more & Hmore & Hm)
  end;
  rewrite Hmore;
  exists (session ++ tail ++ more);
  split; [cbn [map]; now rewrite <- !app_assoc |];
  cbn [List.length]; rewrite !Nat2Z.inj_succ;
  eapply within_le;
  [ apply within_app; [exact Session | apply within_app; [| exact Hm]] | |].

(** What the loop of [main] adds to the trace, for an orchestrator that
    does what an attempt may do. *)
Lemma attempt_loop_added (cfg : config) (o : M (ChargeResult * message)) :
  appends (attempt_event cfg) o ->
  sends 6 o ->
  forall (range : list Z) (tr : trace),
  exists added,
    snd (attempt_loop cfg o range tr) = tr ++ added
    /\ within cfg (Z.of_nat (List.length range))
         (Z.of_nat (List.length (filter (fun a => a <? MAX_RETRIES) range)))
         added.
Proof.
  intros Ho H6 range.
  induction range as [| attempt rest IH]; intros tr.
  - exists (map EvLog [LSeparator; LAllRetriesFailed; LSeparator]).
    split; [| apply within_logs].
    cbn [attempt_loop]. rewrite !bind_log. unfold log, emit. cbn [snd map].
    now rewrite <- !app_assoc.
  - cbn [attempt_loop]. rewrite bind_log. unfold bind at 1, with_session at 1.
    destruct (Ho ((tr ++ [EvLog (LAttempt attempt MAX_RETRIES)])
                  ++ [EvSessionOpen 30])) as (body & Hb & HP).
    pose proof (H6 ((tr ++ [EvLog (LAttempt attempt MAX_RETRIES)])
                    ++ [EvSessionOpen 30])) as Hn.
    destruct (o ((tr ++ [EvLog (LAttempt attempt MAX_RETRIES)])
                 ++ [EvSessionOpen 30])) as [res tr2].
    cbn [snd] in Hb, Hn. subst tr2. rewrite posts_app in Hn.
    assert (Hbody : posts body <= 6) by lia. clear Hn.
    pose proof (within_session cfg attempt body HP Hbody) as Session.
    set (session := [EvLog (LAttempt attempt MAX_RETRIES); EvSessionOpen 30]
                    ++ body ++ [EvSessionClose]) in *.
    assert (Shape : (((tr ++ [EvLog (LAttempt attempt MAX_RETRIES)])
                      ++ [EvSessionOpen 30]) ++ body) ++ [EvSessionClose]
                    = tr ++ session)
      by (unfold session; now rewrite <- !app_assoc).
    rewrite Shape. clear Shape.
    assert (Len : 1 <= Z.of_nat (List.length (attempt :: rest))
                  /\ 0 <= Z.of_nat (List.length
                                      (filter (fun a => a <? MAX_RETRIES)
                                              (attempt :: rest))))
      by (split; [cbn [List.length] |]; lia).
    assert (Stop : forall ls,
               within cfg (Z.of_nat (List.length (attempt :: rest)))
                 (Z.of_nat (List.length (filter (fun a => a <? MAX_RETRIES)
                                                (attempt :: rest))))
                 (session ++ map EvLog ls)).
    { intros ls.
      apply within_le with (n := 1 + 0) (s := 0 + 0); try lia.
      apply within_app; [exact Session | apply within_logs]. }
    destruct res as [[r m] | e]; cbn beta iota zeta.
    + destruct r.
      * exists (session ++ map EvLog [LSeparator; LChargeStarted; LDetail m;
                                      LMaxChargeTime (MAX_CHARGE_TIME cfg);
                                      LSeparator]).
        split; [| apply Stop].
        rewrite !bind_log. unfold log, emit. cbn [snd map].
        now rewrite <- !app_assoc.
      * exists (session ++ map EvLog [LResult m; LNothingToRecover]).
        split; [| apply Stop].
        rewrite !bind_log. unfold log, emit. cbn [snd map].
        now rewrite <- !app_assoc.
      * rewrite bind_log. cbn [filter].
        destruct (attempt <? MAX_RETRIES).
        -- rewrite bind_assoc, bind_log, bind_emit.
           retry_with IH Session session
             (map EvLog [LResult m; LRetryIn (RETRY_INTERVAL / 60)]
              ++ [EvSleep RETRY_INTERVAL]);
             [apply within_app; [apply within_logs | apply within_sleep]
             | lia | lia].
        -- rewrite bind_log.
           retry_with IH Session session (map EvLog [LResult m; LMaxRetriesReached]);
             [apply within_logs | lia | lia].
      * rewrite bind_log. cbn [filter].
        destruct (attempt <? MAX_RETRIES).
        -- rewrite bind_assoc, bind_log, bind_emit.
           retry_with IH Session session
             (map EvLog [LResult m; LRetryIn (RETRY_INTERVAL / 60)]
              ++ [EvSleep RETRY_INTERVAL]);
             [apply within_app; [apply within_logs | apply within_sleep]
             | lia | lia].
        -- rewrite bind_log.
           retry_with IH Session session (map EvLog [LResult m; LMaxRetriesReached]);
             [apply within_logs | lia | lia].
    + exists (session ++ map EvLog []).
      split; [| apply Stop]. cbn [snd map]. now rewrite app_nil_r.
Qed.

Lemma log_config_errors_run (errs : list string) (tr : trace) :
  log_config_errors errs tr
  = (Ret tt, tr ++ map EvLog (map LConfigError errs)).
Proof.
  revert tr. induction errs as [| err rest IH]; intros tr; cbn [log_config_errors map].
  - unfold ret. now rewrite app_nil_r.
  - rewrite bind_log, IH, <- app_assoc. reflexivity.
Qed.

(** Lines 290 to 296 of [main] when [validate_config] returns errors. *)
Lemma main_with_refused (cfg : config) (o : M (ChargeResult * message))
    (tr : trace) :
  validate_config cfg <> [] ->
  main_with cfg o tr
  = (Ret tt,
     tr ++ map EvLog
             ([LSeparator; LStartup;
               LRetryPolicy MAX_RETRIES (RETRY_INTERVAL / 60); LSeparator]
              ++ map LConfigError (validate_config cfg) ++ [LCheckEnvFile])).
Proof.
  intros H. unfold main_with. rewrite !bind_log.
  destruct (validate_config cfg) as [| err errs]; [congruence |].
  unfold bind at 1. rewrite log_config_errors_run. unfold log, emit.
  rewrite !map_app, <- !app_assoc. reflexivity.
Qed.

(** What a run of [main] adds to the trace. *)
Lemma main_within (E : env) (cfg : config) (tr : trace) :
  exists added,
    snd (main E cfg tr) = tr ++ added
    /\ within cfg MAX_RETRIES (MAX_RETRIES - 1) added.
Proof.
  unfold main.
  destruct (validate_config cfg) as [| err errs] eqn:V.
  - unfold main_with. rewrite V, !bind_log.
    change (py_range 1 (MAX_RETRIES + 1)) with [1; 2; 3].
    destruct (attempt_loop_added cfg (try_charge E cfg)
                (try_charge_events E cfg) (try_charge_sends E cfg) [1; 2; 3]
                ((((tr ++ [EvLog LSeparator]) ++ [EvLog LStartup])
                  ++ [EvLog (LRetryPolicy MAX_RETRIES (RETRY_INTERVAL / 60))])
                 ++ [EvLog LSeparator])) as (added & Ha & Hw).
    exists (map EvLog [LSeparator; LStartup;
                       LRetryPolicy MAX_RETRIES (RETRY_INTERVAL / 60);
                       LSeparator] ++ added).
    split; [rewrite Ha; cbn [map]; now rewrite <- !app_assoc |].
    apply within_le with (n := 0 + 3) (s := 0 + 2); try (unfold MAX_RETRIES; lia).
    apply within_app; [apply within_logs | exact Hw].
  - rewrite main_with_refused by (rewrite V; discriminate).
    eexists. split; [reflexivity |].
    apply within_le with (n := 0) (s := 0); try (unfold MAX_RETRIES; lia).
    apply within_logs.
Qed.

(** X1. Whatever the platform and the clock do, and whatever the
    configuration, a run of [main] makes at most [MAX_RETRIES] = 3 attempts
    and sleeps at most [(MAX_RETRIES - 1) * RETRY_INTERVAL] = 1200 seconds
    in all. *)
Theorem main_attempts_bounded (E : env) (cfg : config) :
  invocations (snd (main E cfg [])) <= MAX_RETRIES
  /\ slept (snd (main E cfg [])) <= (MAX_RETRIES - 1) * RETRY_INTERVAL.
Proof.
  destruct (main_within E cfg []) as (added & -> & Hi & Hs & _).
  cbn [app]. split; [exact Hi |]. rewrite Z.mul_comm. exact Hs.
Qed.

(** X2. A run of [main] keeps the discipline of sessions: a session is
    opened only when none is open, every request is sent inside a session,
    every sleep is outside of one, and when [main] returns no session is
    left open. *)
Theorem main_sessions_disciplined (E : env) (cfg : config) :
  disciplined false (snd (main E cfg [])) = true.
Proof.
  destruct (main_within E cfg []) as (added & -> & _ & _ & Hd & _). exact Hd.
Qed.

(** X3. Every request of a run of [main] goes to one of the four endpoints
    under [BASE_URL] and carries [HEADERS]; every session has the timeout
    of 30 seconds; every sleep lasts [RETRY_INTERVAL]. *)
Theorem main_events (E : env) (cfg : config) (ev : event) :
  In ev (snd (main E cfg [])) ->
  match ev with
  | EvPost url _ headers => In url (endpoints cfg) /\ headers = HEADERS cfg
  | EvSessionOpen timeout => timeout = 30
  | EvSleep seconds => seconds = RETRY_INTERVAL
  | _ => True
  end.
Proof.
  destruct (main_within E cfg []) as (added & -> & _ & _ & _ & Hf & _).
  cbn [app]. intros Hin. rewrite Forall_forall in Hf. specialize (Hf ev Hin).
  destruct ev; cbn in Hf; trivial.
Qed.

Lemma main_events_witness :
  match user_info_request demo_cfg with
  | EvPost url _ headers => In url (endpoints demo_cfg) /\ headers = HEADERS demo_cfg
  | EvSessionOpen timeout => timeout = 30
  | EvSleep seconds => seconds = RETRY_INTERVAL
  | _ => True
  end.
Proof.
  apply (main_events scenario_A demo_cfg (user_info_request demo_cfg)).
  vm_compute. tauto.
Defined.

(** X15. An attempt sends at most six requests (one for the user record,
    two for the history, one for the device, two to begin the charge), so a
    run of [main] sends at most [6 * MAX_RETRIES] = 18, whatever the
    platform answers. *)
Theorem main_requests_bounded (E : env) (cfg : config) :
  (forall tr, posts (snd (try_charge E cfg tr)) <= posts tr + 6)
  /\ posts (snd (main E cfg [])) <= 6 * MAX_RETRIES.
Proof.
  split; [exact (try_charge_sends E cfg) |].
  destruct (main_within E cfg []) as (added & -> & _ & _ & _ & _ & Hp).
  exact Hp.
Qed.

(** X5. On a configuration that [validate_config] refuses, [main] logs the
    banner, one line for each error and the advice to check the
    environment file, and returns: it opens no session, sends no request
    and makes no attempt. *)
Theorem main_refused_config (E : env) (cfg : config) (tr : trace) :
  validate_config cfg <> [] ->
  main E cfg tr
  = (Ret tt,
     tr ++ map EvLog
             ([LSeparator; LStartup;
               LRetryPolicy MAX_RETRIES (RETRY_INTERVAL / 60); LSeparator]
              ++ map LConfigError (validate_config cfg) ++ [LCheckEnvFile]))
  /\ invocations (snd (main E cfg tr)) = invocations tr.
Proof.
  intros H. unfold main. rewrite (main_with_refused cfg _ tr H).
  split; [reflexivity |]. cbn [snd].
  rewrite invocations_app.
  destruct (within_logs cfg
              ([LSeparator; LStartup;
                LRetryPolicy MAX_RETRIES (RETRY_INTERVAL / 60); LSeparator]
               ++ map LConfigError (validate_config cfg) ++ [LCheckEnvFile]))
    as (Hi & _).
  assert (0 <= invocations
                 (map EvLog
                    ([LSeparator; LStartup;
                      LRetryPolicy MAX_RETRIES (RETRY_INTERVAL / 60); LSeparator]
                     ++ map LConfigError (validate_config cfg) ++ [LCheckEnvFile])))
    by (unfold invocations; lia).
  lia.
Qed.

Lemma main_refused_config_witness :
  main scenario_A refused_cfg []
  = (Ret tt,
     [] ++ map EvLog
             ([LSeparator; LStartup;
               LRetryPolicy MAX_RETRIES (RETRY_INTERVAL / 60); LSeparator]
              ++ map LConfigError (validate_config refused_cfg) ++ [LCheckEnvFile])).
Proof.
  refine (proj1 (main_refused_config scenario_A refused_cfg [] _)).
  discriminate.
Defined.

(** ** The ways an attempt ends before the charge *)

(** X6. When the user-info endpoint answers with an object that reports no
    success, or whose [obj] is absent, null or empty, the attempt ends with
    [ERROR] and the message that the user record could not be fetched; the
    request for the user record is the only one it has sent. *)
Theorem user_info_unavailable (E : env) (cfg : config) (tr : trace) (d : dict) :
  post_json E (tr ++ [EvLog LFetchUserInfo])
    (BASE_URL cfg ++ "/wxn/getUserInfo")%string
    [("openId", VStr (OPEN_ID cfg)); ("areaId", VStr (AREA_ID cfg))]
  = Ret (VDict d) ->
  truthy (dict_get "success" VNone d) = false
  \/ truthy (dict_get "obj" VNone d) = false ->
  try_charge E cfg tr
  = (Ret (ERROR, MsgUserInfoFailed),
     tr ++ [EvLog LFetchUserInfo; user_info_request cfg]).
Proof.
  intros Hp Hd. unfold try_charge, try_except_Exception, try_charge_body.
  rewrite bind_log. unfold get_user_info. cbv zeta.
  rewrite bind_assoc, bind_post, Hp. run_steps.
  unfold user_info_request. rewrite app_two.
  destruct (truthy (dict_get "success" VNone d)).
  - destruct Hd as [Hd | Hd]; [discriminate |].
    rewrite bind_lift, Hd. reflexivity.
  - reflexivity.
Qed.

Lemma user_info_unavailable_witness :
  try_charge scenario_down demo_cfg []
  = (Ret (ERROR, MsgUserInfoFailed),
     [] ++ [EvLog LFetchUserInfo; user_info_request demo_cfg]).
Proof.
  refine (user_info_unavailable scenario_down demo_cfg []
            [("success", VBool false); ("msg", VStr "busy")] _ _).
  - reflexivity.
  - left. reflexivity.
Defined.

(** X7. A user record without [readyaccountmoney] counts as a balance of
    0: the attempt ends with [ERROR] and the insufficient-balance message
    after the one request for the user record. *)
Theorem missing_balance_is_insufficient (E : env) (cfg : config) (tr tr1 : trace)
    (user : dict) :
  get_user_info E cfg (tr ++ [EvLog LFetchUserInfo]) = (Ret (VDict user), tr1) ->
  truthy (VDict user) = true ->
  dict_lookup "readyaccountmoney" user = None ->
  try_charge E cfg tr
  = (Ret (ERROR, MsgInsufficientBalance),
     tr ++ [EvLog LFetchUserInfo; user_info_request cfg; EvLog (LBalance (VInt 0))]).
Proof.
  intros Hu Ht Hb.
  assert (T : tr1 = (tr ++ [EvLog LFetchUserInfo]) ++ [user_info_request cfg]).
  { rewrite <- get_user_info_trace with (E := E). now rewrite Hu. }
  rewrite (try_charge_balance E cfg tr (VDict user) 0 tr1 Hu Ht);
    [| rewrite py_get_dict; unfold dict_get; now rewrite Hb | reflexivity].
  rewrite T. cbn [Z.ltb Z.compare]. now rewrite <- !app_assoc.
Qed.

Lemma missing_balance_is_insufficient_witness :
  try_charge scenario_no_balance demo_cfg []
  = (Ret (ERROR, MsgInsufficientBalance),
     [] ++ [EvLog LFetchUserInfo; user_info_request demo_cfg;
            EvLog (LBalance (VInt 0))]).
Proof.
  refine (missing_balance_is_insufficient scenario_no_balance demo_cfg []
            _ [("name", VStr "u")] _ _ _).
  - reflexivity.
  - reflexivity.
  - reflexivity.
Defined.

(** X8. A balance that is not a number ([balance / 100] raises) ends the
    attempt with [ERROR] and the exception, before the balance is logged
    and before any request for the history. *)
Theorem balance_not_a_number (E : env) (cfg : config) (tr tr1 : trace)
    (user_info balance : value) (e : exn) :
  get_user_info E cfg (tr ++ [EvLog LFetchUserInfo]) = (Ret user_info, tr1) ->
  truthy user_info = true ->
  py_get user_info "readyaccountmoney" (VInt 0) = Ret balance ->
  py_truediv_check balance = Raise e ->
  try_charge E cfg tr
  = (Ret (ERROR, MsgException e),
     tr ++ [EvLog LFetchUserInfo; user_info_request cfg]).
Proof.
  intros Hu Ht Hb Hd.
  assert (T : tr1 = (tr ++ [EvLog LFetchUserInfo]) ++ [user_info_request cfg]).
  { rewrite <- get_user_info_trace with (E := E). now rewrite Hu. }
  start_attempt. rewrite Hu, Ht. cbn [negb].
  unfold bind, lift, ret. rewrite Hb, Hd, T. now rewrite <- !app_assoc.
Qed.

Lemma balance_not_a_number_witness :
  try_charge scenario_text_balance demo_cfg []
  = (Ret (ERROR, MsgException TypeError),
     [] ++ [EvLog LFetchUserInfo; user_info_request demo_cfg]).
Proof.
  refine (balance_not_a_number scenario_text_balance demo_cfg [] _
            (VDict [("readyaccountmoney", VStr "1234")]) (VStr "1234")
            TypeError _ _ _ _).
  - reflexivity.
  - reflexivity.
  - reflexivity.
  - reflexivity.
Defined.

(** X9. In an attempt that comes to the history (its balance [b] is an
    integer of at least 100 whose hundredth is a float), a charge-log
    response that reports success and carries a null [obj] is not an empty
    history: [logs.extend(None)] raises and the attempt ends with [ERROR]
    and the [TypeError], after the first request for the history. *)
Theorem null_history_is_error (E : env) (cfg : config) (tr tr1 : trace)
    (user_info : value) (b : Z) (d : dict) :
  get_user_info E cfg (tr ++ [EvLog LFetchUserInfo]) = (Ret user_info, tr1) ->
  truthy user_info = true ->
  py_get user_info "readyaccountmoney" (VInt 0) = Ret (VInt b) ->
  100 <= b ->
  float_overflow b 100 = false ->
  let term := strftime_Ym (clock E (tr1 ++ [EvLog (LBalance (VInt b))])) in
  let tr2 := tr1 ++ [EvLog (LBalance (VInt b)); EvNow; EvLog (LFetchHistory term)] in
  post_json E tr2 (BASE_URL cfg ++ "/wxn/getChargeLog")%string
    [("employeeid", VStr (EMPLOYEE_ID cfg)); ("term", VStr term)]
  = Ret (VDict d) ->
  truthy (dict_get "success" VNone d) = true ->
  dict_lookup "obj" d = Some VNone ->
  try_charge E cfg tr
  = (Ret (ERROR, MsgException TypeError), tr2 ++ [charge_log_request cfg term]).
Proof.
  intros Hu Ht Hb Hge Hfit term tr2 Hp Hs Ho.
  rewrite (try_charge_balance E cfg tr user_info b tr1 Hu Ht Hb Hfit).
  destruct (Z.ltb_spec b 100); [lia |].
  unfold try_except_Exception, recover, fetch_charge_history.
  rewrite !bind_assoc. unfold bind at 1, datetime_now. cbv zeta.
  rewrite bind_assoc, bind_log. fold term. rewrite <- !app_assoc. cbn [app].
  fold tr2. unfold get_charge_log. cbv zeta.
  rewrite !bind_assoc, bind_post, Hp. run_steps. rewrite Hs.
  unfold dict_get. rewrite Ho. reflexivity.
Qed.

Lemma null_history_is_error_witness :
  try_charge scenario_null_history demo_cfg []
  = (Ret (ERROR, MsgException TypeError),
     (([] ++ [EvLog LFetchUserInfo]) ++ [user_info_request demo_cfg])
     ++ [EvLog (LBalance (VInt 1234)); EvNow; EvLog (LFetchHistory "202403")]
     ++ [charge_log_request demo_cfg "202403"]).
Proof.
  rewrite app_assoc.
  refine (null_history_is_error scenario_null_history demo_cfg [] _
            (VDict [("readyaccountmoney", VInt 1234)]) 1234
            [("success", VBool true); ("obj", VNone)] _ _ _ _ _ _ _ _).
  - reflexivity.
  - reflexivity.
  - reflexivity.
  - lia.
  - vm_compute. reflexivity.
  - reflexivity.
  - reflexivity.
  - reflexivity.
Defined.

(** The loop over a history all of whose records are passed over: nothing
    is found and nothing is logged. *)
Lemma find_in_window_none (cfg : config) (s e : datetime)
    (records : list ChargeRecord) (tr : trace) :
  Forall (fun r => passed_over s e (POWER_OFF_END_TYPE cfg) r = true) records ->
  find_in_window cfg s e (map record_value records) tr = (Ret VNone, tr).
Proof.
  induction 1 as [| r rest Hr _ IH]; [reflexivity |].
  revert Hr. unfold passed_over, ended_in_window, refused_instant. intros Hr.
  cbn [map find_in_window]. unfold bind at 1, lift at 1.
  change (py_get (record_value r) "endtype" VNone) with (Ret (VInt (endtype r))).
  cbv beta iota. unfold bind at 1, lift at 1.
  change (py_get (record_value r) "enddt" VNone)
    with (Ret (match enddt r with Some t => VInt t | None => VNone end)).
  cbv beta iota. cbn [py_eq_int].
  destruct (endtype r =? POWER_OFF_END_TYPE cfg); cbn [negb andb] in *;
    [| exact IH].
  destruct (enddt r) as [t |]; cbn [is_none py_fromtimestamp_ms]; [| exact IH].
  unfold bind at 1, lift at 1.
  destruct (fromtimestamp_ms t) as [end_time | ex]; [| discriminate].
  destruct (dt_le s end_time && dt_le end_time e); [discriminate | exact IH].
Qed.

(** X10. In an attempt that comes to the history (its balance [b] is an
    integer of at least 100 whose hundredth is a float), when the history
    holds records and the loop passes over every one of them (none ended
    with the outage code inside the window, and none has the outage code
    with an end time that [fromtimestamp] refuses), the attempt ends with
    [NO_RECORD] and the message that no outage record was found; nothing is
    asked about any device and no charge is started: the trace ends with
    the line that logs the window. *)
Theorem no_record_in_window (E : env) (cfg : config) (tr tr1 tr2 tr3 : trace)
    (user_info : value) (b : Z) (records : list ChargeRecord) (s e : datetime) :
  get_user_info E cfg (tr ++ [EvLog LFetchUserInfo]) = (Ret user_info, tr1) ->
  truthy user_info = true ->
  py_get user_info "readyaccountmoney" (VInt 0) = Ret (VInt b) ->
  100 <= b ->
  float_overflow b 100 = false ->
  fetch_charge_history E cfg (tr1 ++ [EvLog (LBalance (VInt b))])
  = (Ret (map record_value records), tr2) ->
  records <> [] ->
  power_off_window E cfg
    (tr2 ++ [EvLog (LRecordCount (Z.of_nat (List.length records)));
             EvLog LCheckRecords])
  = (Ret (s, e), tr3) ->
  Forall (fun r => passed_over s e (POWER_OFF_END_TYPE cfg) r = true) records ->
  try_charge E cfg tr = (Ret (NO_RECORD, MsgNoPowerOffRecord), tr3).
Proof.
  intros Hu Ht Hb Hge Hfit Hf Hne Hw Hn.
  rewrite (try_charge_balance E cfg tr user_info b tr1 Hu Ht Hb Hfit).
  destruct (Z.ltb_spec b 100); [lia |].
  unfold try_except_Exception, recover. rewrite (bind_run _ _ _ _ _ Hf).
  destruct records as [| r0 rest]; [congruence |].
  cbn [map]. rewrite !bind_log, app_two.
  change (record_value r0 :: map record_value rest)
    with (map record_value (r0 :: rest)).
  rewrite length_map. unfold find_power_off_record.
  rewrite bind_assoc, (bind_run _ _ _ _ _ Hw). cbn [fst snd].
  rewrite (bind_run _ _ _ _ _ (find_in_window_none cfg s e _ tr3 Hn)).
  reflexivity.
Qed.

Lemma no_record_in_window_witness :
  fst (try_charge scenario_normal_only demo_cfg [])
  = Ret (NO_RECORD, MsgNoPowerOffRecord).
Proof.
  pose (tr1 := snd (get_user_info scenario_normal_only demo_cfg
                      ([] ++ [EvLog LFetchUserInfo]))).
  pose (tr2 := snd (fetch_charge_history scenario_normal_only demo_cfg
                      (tr1 ++ [EvLog (LBalance (VInt 1234))]))).
  pose (tr3 := snd (power_off_window scenario_normal_only demo_cfg
                      (tr2 ++ [EvLog (LRecordCount 1); EvLog LCheckRecords]))).
  rewrite (no_record_in_window scenario_normal_only demo_cfg [] tr1 tr2 tr3
             (VDict [("readyaccountmoney", VInt 1234)]) 1234
             [demo_record_normal] demo_window_start demo_window_end).
  - reflexivity.
  - vm_compute. reflexivity.
  - reflexivity.
  - reflexivity.
  - lia.
  - vm_compute. reflexivity.
  - vm_compute. reflexivity.
  - discriminate.
  - vm_compute. reflexivity.
  - repeat constructor.
Defined.

(** X11. In an attempt that finds the record of an outage (its balance [b]
    is an integer of at least 100 whose hundredth is a float), when the
    device endpoint gives no record of the device of the outage (it reports
    failure, or its [obj] is absent, null or empty), the attempt ends with
    [ERROR] and the message that the device could not be fetched, right
    after that request. *)
Theorem device_info_unavailable (E : env) (cfg : config)
    (tr tr1 tr2 tr3 tr4 : trace) (user_info device_info : value) (b : Z)
    (logs : list value) (record : dict) :
  get_user_info E cfg (tr ++ [EvLog LFetchUserInfo]) = (Ret user_info, tr1) ->
  truthy user_info = true ->
  py_get user_info "readyaccountmoney" (VInt 0) = Ret (VInt b) ->
  100 <= b ->
  float_overflow b 100 = false ->
  fetch_charge_history E cfg (tr1 ++ [EvLog (LBalance (VInt b))]) = (Ret logs, tr2) ->
  logs <> [] ->
  find_power_off_record E cfg logs
    (tr2 ++ [EvLog (LRecordCount (Z.of_nat (List.length logs)));
             EvLog LCheckRecords])
  = (Ret (VDict record), tr3) ->
  truthy (VDict record) = true ->
  let devaddress := str_of E (dict_get "devaddress" VNone record) in
  get_device_info E cfg devaddress (tr3 ++ [EvLog (LFetchDevice devaddress)])
  = (Ret device_info, tr4) ->
  truthy device_info = false ->
  try_charge E cfg tr = (Ret (ERROR, MsgDeviceInfoFailed), tr4).
Proof.
  intros Hu Ht Hb Hge Hfit Hf Hne Hr Htr devaddress Hd Htd. subst devaddress.
  rewrite (try_charge_balance E cfg tr user_info b tr1 Hu Ht Hb Hfit).
  destruct (Z.ltb_spec b 100); [lia |].
  unfold try_except_Exception, recover. rewrite (bind_run _ _ _ _ _ Hf).
  destruct logs as [| r0 rest]; [congruence |].
  rewrite !bind_log, app_two, (bind_run _ _ _ _ _ Hr), Htr.
  run_steps. rewrite (bind_run _ _ _ _ _ Hd), Htd. reflexivity.
Qed.

Lemma device_info_unavailable_witness :
  fst (try_charge scenario_no_device demo_cfg [])
  = Ret (ERROR, MsgDeviceInfoFailed).
Proof.
  pose (record := [("devaddress", VStr "D100"); ("devport", VStr "2");
                   ("endtype", VInt 39); ("enddt", VInt 1710431160000)]).
  pose (logs := [VDict record]).
  pose (tr1 := snd (get_user_info scenario_no_device demo_cfg
                      ([] ++ [EvLog LFetchUserInfo]))).
  pose (tr2 := snd (fetch_charge_history scenario_no_device demo_cfg
                      (tr1 ++ [EvLog (LBalance (VInt 1234))]))).
  pose (tr3 := snd (find_power_off_record scenario_no_device demo_cfg logs
                      (tr2 ++ [EvLog (LRecordCount 1); EvLog LCheckRecords]))).
  pose (tr4 := snd (get_device_info scenario_no_device demo_cfg "D100"
                      (tr3 ++ [EvLog (LFetchDevice "D100")]))).
  rewrite (device_info_unavailable scenario_no_device demo_cfg [] tr1 tr2 tr3 tr4
             (VDict [("readyaccountmoney", VInt 1234)]) VNone 1234 logs record).
  - reflexivity.
  - vm_compute. reflexivity.
  - reflexivity.
  - reflexivity.
  - lia.
  - vm_compute. reflexivity.
  - vm_compute. reflexivity.
  - discriminate.
  - vm_compute. reflexivity.
  - reflexivity.
  - vm_compute. reflexivity.
  - reflexivity.
Defined.

(** X12. In an attempt that finds the record of an outage and the state of
    its device (its balance [b] is an integer of at least 100 whose
    hundredth is a float), when [is_port_free] answers false for the port
    of the outage, the attempt ends with [PORT_BUSY] and names the port; the
    status of the ports is the last line logged, and no begin-charge
    request is sent. *)
Theorem port_busy (E : env) (cfg : config)
    (tr tr1 tr2 tr3 tr4 : trace) (user_info : value) (b : Z)
    (logs : list value) (record device : dict) :
  get_user_info E cfg (tr ++ [EvLog LFetchUserInfo]) = (Ret user_info, tr1) ->
  truthy user_info = true ->
  py_get user_info "readyaccountmoney" (VInt 0) = Ret (VInt b) ->
  100 <= b ->
  float_overflow b 100 = false ->
  fetch_charge_history E cfg (tr1 ++ [EvLog (LBalance (VInt b))]) = (Ret logs, tr2) ->
  logs <> [] ->
  find_power_off_record E cfg logs
    (tr2 ++ [EvLog (LRecordCount (Z.of_nat (List.length logs)));
             EvLog LCheckRecords])
  = (Ret (VDict record), tr3) ->
  truthy (VDict record) = true ->
  let devaddress := str_of E (dict_get "devaddress" VNone record) in
  let port := dict_get "devport" VNone record in
  let portstatur := dict_get "portstatur" (VStr "") device in
  get_device_info E cfg devaddress (tr3 ++ [EvLog (LFetchDevice devaddress)])
  = (Ret (VDict device), tr4) ->
  truthy (VDict device) = true ->
  is_port_free E portstatur port = Ret false ->
  try_charge E cfg tr
  = (Ret (PORT_BUSY, MsgPortBusy port), tr4 ++ [EvLog (LPortStatus portstatur)]).
Proof.
  intros Hu Ht Hb Hge Hfit Hf Hne Hr Htr devaddress port portstatur Hd Htd Hp.
  subst devaddress port portstatur.
  rewrite (try_charge_balance E cfg tr user_info b tr1 Hu Ht Hb Hfit).
  destruct (Z.ltb_spec b 100); [lia |].
  unfold try_except_Exception, recover. rewrite (bind_run _ _ _ _ _ Hf).
  destruct logs as [| r0 rest]; [congruence |].
  rewrite !bind_log, app_two, (bind_run _ _ _ _ _ Hr), Htr.
  run_steps. rewrite (bind_run _ _ _ _ _ Hd), Htd.
  run_steps. rewrite Hp. run_steps. reflexivity.
Qed.

Lemma port_busy_witness :
  fst (try_charge scenario_busy demo_cfg [])
  = Ret (PORT_BUSY, MsgPortBusy (VStr "2")).
Proof.
  pose (record := [("devaddress", VStr "D100"); ("devport", VStr "2");
                   ("endtype", VInt 39); ("enddt", VInt 1710431160000)]).
  pose (logs := [VDict record]).
  pose (tr1 := snd (get_user_info scenario_busy demo_cfg
                      ([] ++ [EvLog LFetchUserInfo]))).
  pose (tr2 := snd (fetch_charge_history scenario_busy demo_cfg
                      (tr1 ++ [EvLog (LBalance (VInt 1234))]))).
  pose (tr3 := snd (find_power_off_record scenario_busy demo_cfg logs
                      (tr2 ++ [EvLog (LRecordCount 1); EvLog LCheckRecords]))).
  pose (tr4 := snd (get_device_info scenario_busy demo_cfg "D100"
                      (tr3 ++ [EvLog (LFetchDevice "D100")]))).
  rewrite (port_busy scenario_busy demo_cfg [] tr1 tr2 tr3 tr4
             (VDict [("readyaccountmoney", VInt 1234)]) 1234 logs record
             [("portstatur", VStr "101")]).
  - reflexivity.
  - vm_compute. reflexivity.
  - reflexivity.
  - reflexivity.
  - lia.
  - vm_compute. reflexivity.
  - vm_compute. reflexivity.
  - discriminate.
  - vm_compute. reflexivity.
  - reflexivity.
  - vm_compute. reflexivity.
  - reflexivity.
  - vm_compute. reflexivity.
Defined.

(** ** The port check on any value *)

(** X13. On two strings [is_port_free] answers true exactly when
    [int(port)] is an index [i] with [-len <= i < len] of the status string
    and the character that Python reads there (at [i] from the start, or
    at [i + len] when [i] is negative) is "0". *)
Theorem is_port_free_true_iff (E : env) (portstatur port : string) :
  is_port_free E (VStr portstatur) (VStr port) = Ret true
  <-> exists i,
        int_of_string (int_max_str_digits E) port = Ret i
        /\ - Z.of_nat (String.length portstatur) <= i < Z.of_nat (String.length portstatur)
        /\ String.get (Z.to_nat (i mod Z.of_nat (String.length portstatur))) portstatur
           = Some "0"%char.
Proof.
  rewrite is_port_free_strings.
  set (n := Z.of_nat (String.length portstatur)).
  destruct (int_of_string (int_max_str_digits E) port) as [i | ex].
  - destruct (Z.leb_spec n i) as [L | L].
    + split; [discriminate |]. intros (i' & [= <-] & Hr & _). lia.
    + unfold py_getitem. cbv zeta. fold n.
      set (j := if i <? 0 then i + n else i).
      assert (J : 0 <= j < n <-> - n <= i < n)
        by (unfold j; destruct (Z.ltb_spec i 0); lia).
      assert (M : 0 <= j < n -> j = i mod n).
      { intros Hj. unfold j. destruct (Z.ltb_spec i 0).
        - symmetry. rewrite <- (Z.mod_small (i + n) n) by (unfold j in Hj; lia).
          rewrite <- (Z.mod_add i 1 n) by lia. now rewrite Z.mul_1_l.
        - symmetry. apply Z.mod_small. lia. }
      destruct (Z.leb_spec 0 j) as [L0 | L0];
        destruct (Z.ltb_spec j n) as [L1 | L1]; cbn [andb];
        try (split; [discriminate |]; intros (i' & [= <-] & Hr & _); lia).
      rewrite (M (conj L0 L1)).
      destruct (String.get (Z.to_nat (i mod n)) portstatur) as [c |] eqn:G.
      * cbn [py_eq_str String.eqb].
        destruct (Ascii.eqb_spec c "0"%char) as [-> | Hc].
        -- split; [| reflexivity]. intros _. exists i.
           split; [reflexivity |]. split; [lia | exact G].
        -- split; [discriminate |]. intros (i' & [= <-] & _ & Hc').
           congruence.
      * split; [discriminate |]. intros (i' & [= <-] & _ & Hc'). congruence.
  - split; [discriminate |]. intros (i' & Hi & _). discriminate Hi.
Qed.

(** X14. On two values that are [None], booleans, integers, strings,
    lists or dicts (floats are not among the values here), [is_port_free]
    lets no [ValueError] and no [IndexError] out: the only exceptions that
    leave it are the [TypeError] of [int], [len] or the subscript on a
    value of the wrong type and the [KeyError] of a subscript on a dict. *)
Theorem is_port_free_raises (E : env) (portstatur port : value) (e : exn) :
  is_port_free E portstatur port = Raise e -> e = TypeError \/ e = KeyError.
Proof.
  unfold is_port_free, try_except, rbind.
  destruct (py_int (int_max_str_digits E) port) as [i | e1] eqn:P.
  - destruct (py_len portstatur) as [n | e2] eqn:L.
    + destruct (n <=? i); [discriminate |].
      destruct (py_getitem portstatur i) as [c | e3] eqn:G; [discriminate |].
      destruct portstatur as [| | | s | l | d]; cbn in L; try discriminate.
      * apply getitem_string_raises in G. subst e3. discriminate.
      * unfold py_getitem in G. cbv zeta in G.
        destruct (_ && _) in G; [destruct (nth_error _ _) in G |];
          try discriminate G; injection G as <-; discriminate.
      * cbn in G. injection G as <-. intros [= <-]. now right.
    + destruct portstatur; cbn in L; try discriminate;
        injection L as <-; intros [= <-]; now left.
  - destruct port as [| | | s | |]; cbn in P; try discriminate;
      try (injection P as <-; intros [= <-]; now left).
    apply int_of_string_raises in P. subst e1. discriminate.
Qed.

Lemma is_port_free_raises_witness : TypeError = TypeError \/ TypeError = KeyError.
Proof.
  apply (is_port_free_raises scenario_A (VStr "100") VNone TypeError).
  reflexivity.
Defined.
